(** * notification-service: a shallow embedding of the delivery pipeline

    The development follows the layout of the repository:

    - the Notification Store as the service functions see it through the
      Prisma client ([prisma_create], [prisma_findMany], ...);
    - [services/notificationService] ([createNotification],
      [getNotifications], [getUnreadCount], [markAsRead], [markAllAsRead],
      [deleteNotification]);
    - [services/delivery] ([deliver], [deliverInApp], [deliverDiscord],
      [getColorForType]);
    - [events/handlers]: one handler body per routing key.

    Asynchronous functions are embedded as computations of a state and
    exception monad [M]: a computation reads the process environment
    [Env] (configuration and the answers of the outside world), updates
    a [World] (the notification table and the trace of observable
    effects) and either returns a value or throws. *)

From Stdlib Require Import ZArith Lia.
From stdpp Require Import gmap strings list fin_maps pretty sorting.

Local Open Scope Z_scope.

(* ===================================================================== *)
(** * Data model                                                          *)
(* ===================================================================== *)

(** The [NotificationType] enumeration of the Prisma client. *)
Inductive NotificationType :=
| CLIP_APPROVED | CLIP_REJECTED
| CAMPAIGN_ACCEPTED | CAMPAIGN_REJECTED | CAMPAIGN_ENDING | CAMPAIGN_ENDED
| NEW_CAMPAIGN | STUDIO_INVITE | CLIP_MILESTONE
| PAYMENT_COMPLETED | PAYMENT_CREDITED | PAYMENT_PROCESSING | PAYMENT_ERROR
| SYSTEM_ALERT | DISCORD_DISCONNECTED | WALLET_NOT_CONFIGURED
| PROFILE_INCOMPLETE.

#[global] Instance NotificationType_eq_dec : EqDecision NotificationType :=
  ltac:(solve_decision).

(* ===================================================================== *)
(** * JavaScript numbers                                                  *)
(* ===================================================================== *)

(** A [number] is an IEEE 754 binary64 value: [Finite s m e] denotes
    [(-1)^s * m * 2^e]. *)
Inductive Number :=
| Finite (negative : bool) (mantissa : Z) (exponent : Z)
| Infinity (negative : bool)
| NaN.

#[global] Instance Number_eq_dec : EqDecision Number :=
  ltac:(solve_decision).

(** An integer as a number; exact up to [2^53] in magnitude. *)
Definition of_int (n : Z) : Number := Finite (n <? 0) (Z.abs n) 0.

(** [a / b] rounded to an integer, ties to even ([0 <= a], [0 < b]). *)
Definition round_half_even (a b : Z) : Z :=
  let q := a / b in
  let r := a mod b in
  if 2 * r <? b then q
  else if b <? 2 * r then q + 1
  else if Z.even q then q else q + 1.

(** The binary64 value nearest to [a / b] ([0 <= a], [0 < b]): 53
    significant bits, round to nearest, ties to even, gradual underflow,
    overflow to infinity. *)
Definition round_ratio (neg : bool) (a b : Z) : Number :=
  if a =? 0 then Finite neg 0 0 else
  let l := Z.log2 a - Z.log2 b in
  let fl := if a * 2 ^ Z.max 0 (- l) <? b * 2 ^ Z.max 0 l then l - 1 else l in
  let e := Z.max (fl - 52) (-1074) in
  let m := round_half_even (a * 2 ^ Z.max 0 (- e)) (b * 2 ^ Z.max 0 e) in
  if (971 <? e) || ((e =? 971) && (2 ^ 53 <=? m)) then Infinity neg
  else Finite neg m e.

(** The [/] operator. *)
Definition number_div (x y : Number) : Number :=
  match x, y with
  | NaN, _ | _, NaN => NaN
  | Infinity _, Infinity _ => NaN
  | Infinity s, Finite t _ _ => Infinity (xorb s t)
  | Finite s _ _, Infinity t => Finite (xorb s t) 0 0
  | Finite s m e, Finite t m' e' =>
      if m' =? 0 then (if m =? 0 then NaN else Infinity (xorb s t))
      else round_ratio (xorb s t)
             (m * 2 ^ Z.max 0 (e - e')) (m' * 2 ^ Z.max 0 (e' - e))
  end.

Definition pad_zeros (width : nat) (s : string) : string :=
  String.concat "" (replicate (width - String.length s) "0") +:+ s.

(** [Number.prototype.toFixed(f)]: the integer [n] nearest to [x * 10^f]
    (the larger one on a tie), printed with [f] digits after the point.
    From [10^21] on the built-in answers with [Number::toString], which is
    the parameter [big]. *)
Definition toFixed (big : Number → string) (x : Number) (f : nat) : string :=
  match x with
  | NaN => "NaN"
  | Infinity neg => if neg then "-Infinity" else "Infinity"
  | Finite neg m e =>
      if 10 ^ 21 * 2 ^ Z.max 0 (- e) <=? m * 2 ^ Z.max 0 e then big x
      else
        let n := (2 * m * 2 ^ Z.max 0 e * 10 ^ Z.of_nat f + 2 ^ Z.max 0 (- e))
                 / (2 * 2 ^ Z.max 0 (- e)) in
        let s := if neg && (0 <? m) then "-" else "" in
        match f with
        | O => s +:+ pretty n
        | _ => s +:+ pretty (n / 10 ^ Z.of_nat f) +:+ "." +:+
               pad_zeros f (pretty (n mod 10 ^ Z.of_nat f))
        end
  end.

(** [Number::toString] as a template literal applies it: integers of
    magnitude below [2^53] print their decimal digits; every other finite
    value (a fraction, or an integer from [2^53] on, which prints its
    shortest round-trip digits) is left to [big]. *)
Definition number_toString (big : Number → string) (x : Number) : string :=
  match x with
  | NaN => "NaN"
  | Infinity neg => if neg then "-Infinity" else "Infinity"
  | Finite neg m e =>
      if (m * 2 ^ Z.max 0 e) mod 2 ^ Z.max 0 (- e) =? 0 then
        let v := m * 2 ^ Z.max 0 e / 2 ^ Z.max 0 (- e) in
        if v <? 2 ^ 53 then
          (if neg && (0 <? v) then "-" else "") +:+ pretty v
        else big x
      else big x
  end.

(** Values stored under a metadata key: [Record<string, unknown>] holds the
    strings and numbers the handlers copy out of the event payloads. *)
Inductive MetaValue :=
| MStr (s : string)
| MNum (x : Number).

#[global] Instance MetaValue_eq_dec : EqDecision MetaValue :=
  ltac:(solve_decision).

Definition Metadata : Type := list (string * MetaValue).

(** A row of the notification table. *)
Record Notification := mkNotification {
  n_id : string;
  n_userId : string;
  n_type : NotificationType;
  n_title : string;
  n_message : option string;
  n_link : option string;
  n_metadata : option Metadata;
  n_isRead : bool;
  n_createdAt : Z
}.

#[global] Instance Notification_eq_dec : EqDecision Notification :=
  ltac:(solve_decision).

(** [data: { isRead: true }] applied to a row. *)
Definition set_isRead (b : bool) (n : Notification) : Notification :=
  {| n_id := n_id n; n_userId := n_userId n; n_type := n_type n;
     n_title := n_title n; n_message := n_message n; n_link := n_link n;
     n_metadata := n_metadata n; n_isRead := b;
     n_createdAt := n_createdAt n |}.

(** Two rows that differ at most in their read flag. *)
Definition same_but_isRead (a b : Notification) : Prop :=
  n_id a = n_id b ∧ n_userId a = n_userId b ∧ n_type a = n_type b ∧
  n_title a = n_title b ∧ n_message a = n_message b ∧
  n_link a = n_link b ∧ n_metadata a = n_metadata b ∧
  n_createdAt a = n_createdAt b.

(* ===================================================================== *)
(** * Exceptions, environment and world                                   *)
(* ===================================================================== *)

(** [lib/errors]: [notFound] and [forbidden] build application errors; any
    other [Error] instance is [Generic]. *)
Inductive ErrorKind := Generic | NotFound | Forbidden.

#[global] Instance ErrorKind_eq_dec : EqDecision ErrorKind :=
  ltac:(solve_decision).

(** What a [throw] carries: an [Error] instance with its [message], or a
    value that is not an [Error]. *)
Inductive Thrown :=
| JsError (kind : ErrorKind) (msg : string)
| NonError.

#[global] Instance Thrown_eq_dec : EqDecision Thrown :=
  ltac:(solve_decision).

Definition notFound (msg : string) : Thrown := JsError NotFound msg.
Definition forbidden (msg : string) : Thrown := JsError Forbidden msg.

(** [error instanceof Error ? error.message : 'Unknown error'] *)
Definition error_message (t : Thrown) : string :=
  match t with
  | JsError _ m => m
  | NonError => "Unknown error"
  end.

(** The answer of the discord service to one [axios.post]. *)
Inductive HttpReply :=
| Responded (status : Z)
| TimedOut
| Unreachable (cause : string).

(** The embed sent to the discord service. *)
Record EmbedField := mkEmbedField {
  f_name : string; f_value : string; f_inline : bool
}.

Record Embed := mkEmbed {
  e_title : string;
  e_description : string;
  e_color : Z;
  e_fields : option (list EmbedField)
}.

Record HttpRequest := mkHttpRequest {
  r_url : string;
  r_userId : string;
  r_embed : Embed;
  r_timeout : Z;
  r_contentType : string
}.

Inductive LogLevel := LDebug | LInfo | LWarn | LError.

(** Observable effects, most recent first in [trace].  [StoreCall op ok]
    records whether the store could be reached. *)
Inductive Effect :=
| StoreCall (op : string) (ok : bool)
| HttpPost (req : HttpRequest) (ok : bool)
| Ack
| Log (level : LogLevel) (text : string).

#[global] Instance LogLevel_eq_dec : EqDecision LogLevel :=
  ltac:(solve_decision).
#[global] Instance EmbedField_eq_dec : EqDecision EmbedField :=
  ltac:(solve_decision).
#[global] Instance Embed_eq_dec : EqDecision Embed :=
  ltac:(solve_decision).
#[global] Instance HttpRequest_eq_dec : EqDecision HttpRequest :=
  ltac:(solve_decision).
#[global] Instance Effect_eq_dec : EqDecision Effect :=
  ltac:(solve_decision).

(** The process environment: [config.discordServiceUrl] and the behaviour
    of the outside world.  The [k]-th call to the store fails with
    [store_fault k] when that is [Some _]; the [k]-th row is given the
    identifier [gen_id k] and the timestamp [clock k]; the [k]-th outbound
    request is answered by [http_reply k].  [big_number] is the
    engine's [Number::toString] for the values [toFixed] and
    [number_toString] leave to it. *)
Record Env := mkEnv {
  discordServiceUrl : option string;
  big_number : Number → string;
  store_fault : nat → option Thrown;
  gen_id : nat → string;
  clock : nat → Z;
  http_reply : nat → HttpReply
}.

Record World := mkWorld {
  db : gmap string Notification;
  store_calls : nat;
  http_calls : nat;
  trace : list Effect
}.

Inductive Outcome (A : Type) :=
| Ok (a : A)
| Throw (t : Thrown).
Arguments Ok {A} a.
Arguments Throw {A} t.

(** Computations: a world in, an outcome and a world out. *)
Definition M (A : Type) : Type := World → Outcome A * World.

Definition ret {A} (a : A) : M A := λ w, (Ok a, w).

Definition bind {A B} (m : M A) (k : A → M B) : M B :=
  λ w, match m w with
       | (Ok a, w') => k a w'
       | (Throw t, w') => (Throw t, w')
       end.

Definition throw {A} (t : Thrown) : M A := λ w, (Throw t, w).

(** [try { body } catch (error) { handler }] *)
Definition try_catch {A} (body : M A) (handler : Thrown → M A) : M A :=
  λ w, match body w with
       | (Ok a, w') => (Ok a, w')
       | (Throw t, w') => handler t w'
       end.

(** [Promise.all([a, b])]: both calls are issued, [a] first; the result
    is rejected with the error of the first one that failed. *)
Definition promise_all {A B} (a : M A) (b : M B) : M (A * B) :=
  λ w, match a w with
       | (ra, w1) =>
           match b w1 with
           | (rb, w2) =>
               match ra, rb with
               | Ok x, Ok y => (Ok (x, y), w2)
               | Throw t, _ => (Throw t, w2)
               | Ok _, Throw t => (Throw t, w2)
               end
           end
       end.

Declare Scope js_scope.
Delimit Scope js_scope with js.
Notation "'let!' x ':=' m 'in' k" := (bind m (λ x, k))
  (at level 10, x name, m at level 100, k at level 200) : js_scope.
Notation "m '>>' k" := (bind m (λ _, k))
  (at level 100, k at level 200, right associativity) : js_scope.
Local Open Scope js_scope.

Definition emit (e : Effect) : M unit :=
  λ w, (Ok tt, {| db := db w; store_calls := store_calls w;
                  http_calls := http_calls w; trace := e :: trace w |}).

Definition log (level : LogLevel) (text : string) : M unit :=
  emit (Log level text).

(** JavaScript truthiness of an optional string: [undefined] and the empty
    string are falsy. *)
Definition truthy (s : option string) : bool :=
  match s with
  | None => false
  | Some s => bool_decide (s ≠ "")
  end.

(* ===================================================================== *)
(** * The Notification Store                                              *)
(* ===================================================================== *)

(** The [where] objects the service passes to the client. *)
Record Where := mkWhere {
  where_userId : string;
  where_isRead : option bool
}.

Definition matches (wh : Where) (n : Notification) : bool :=
  bool_decide (n_userId n = where_userId wh) &&
  match where_isRead wh with
  | None => true
  | Some b => bool_decide (n_isRead n = b)
  end.

(** [orderBy: { createdAt: 'desc' }] *)
Definition newer_first (a b : Notification) : Prop :=
  n_createdAt b ≤ n_createdAt a.

#[global] Instance newer_first_dec a b : Decision (newer_first a b) :=
  Z_le_dec (n_createdAt b) (n_createdAt a).

(** The rows selected by a [where] object. *)
Definition select (wh : Where) (rows : gmap string Notification)
  : gmap string Notification :=
  filter (λ kv, matches wh kv.2 = true) rows.

(** The row the store inserts on its [k]-th call: a generated identifier,
    [isRead = false] and the current time. *)
Definition new_row (env : Env) (k : nat) (userId : string)
    (type : NotificationType) (title : string)
    (message link : option string) (metadata : option Metadata)
  : Notification :=
  {| n_id := gen_id env k; n_userId := userId; n_type := type;
     n_title := title; n_message := message; n_link := link;
     n_metadata := metadata; n_isRead := false; n_createdAt := clock env k |}.

Section Store.
Variable env : Env.

(** Every call to the client is a round trip to the store, which may
    fail; the call returns its sequence number. *)
Definition store_call (op : string) : M nat :=
  λ w,
    let k := store_calls w in
    match store_fault env k with
    | Some t =>
        (Throw t, {| db := db w; store_calls := S k;
                     http_calls := http_calls w;
                     trace := StoreCall op false :: trace w |})
    | None =>
        (Ok k, {| db := db w; store_calls := S k;
                  http_calls := http_calls w;
                  trace := StoreCall op true :: trace w |})
    end.

Definition set_db (rows : gmap string Notification) : M unit :=
  λ w, (Ok tt, {| db := rows; store_calls := store_calls w;
                  http_calls := http_calls w; trace := trace w |}).

Definition get_db : M (gmap string Notification) := λ w, (Ok (db w), w).

(** [prisma.notification.create({ data })]: the row gets a generated
    identifier, [isRead = false] and the current time.  The identifier
    column is the primary key: a duplicate is refused. *)
Definition prisma_create
    (userId : string) (type : NotificationType) (title : string)
    (message link : option string) (metadata : option Metadata)
  : M Notification :=
  let! k := store_call "create" in
  let! rows := get_db in
  let row := new_row env k userId type title message link metadata in
  match rows !! gen_id env k with
  | Some _ =>
      throw (JsError Generic
               "Unique constraint failed on the fields: (`id`)")
  | None => set_db (<[gen_id env k := row]> rows) >> ret row
  end.

(** [findMany({ where, orderBy: { createdAt: 'desc' }, take, skip })].
    The query names no tie-breaker: rows of equal [createdAt] come in an
    order the store chooses.  The embedding fixes one such order; no
    statement below depends on which. *)
Definition prisma_findMany (wh : Where) (take skip : nat)
  : M (list Notification) :=
  store_call "findMany" >>
  let! rows := get_db in
  ret (firstn take
         (skipn skip
            (merge_sort newer_first
               ((map_to_list (select wh rows)).*2)))).

(** [count({ where })] *)
Definition prisma_count (wh : Where) : M nat :=
  store_call "count" >>
  let! rows := get_db in
  ret (size (select wh rows)).

(** [findUnique({ where: { id } })] *)
Definition prisma_findUnique (id : string) : M (option Notification) :=
  store_call "findUnique" >>
  let! rows := get_db in
  ret (rows !! id).

(** [update({ where: { id }, data: { isRead } })]; the client throws
    when the row does not exist. *)
Definition prisma_update (id : string) (isRead : bool) : M Notification :=
  store_call "update" >>
  let! rows := get_db in
  match rows !! id with
  | None => throw (JsError Generic "Record to update not found.")
  | Some n =>
      set_db (<[id := set_isRead isRead n]> rows) >>
      ret (set_isRead isRead n)
  end.

(** [updateMany({ where, data: { isRead } })] returns the number of rows
    it matched. *)
Definition prisma_updateMany (wh : Where) (isRead : bool) : M nat :=
  store_call "updateMany" >>
  let! rows := get_db in
  set_db ((λ n, if matches wh n then set_isRead isRead n else n) <$> rows) >>
  ret (size (select wh rows)).

(** [delete({ where: { id } })] *)
Definition prisma_delete (id : string) : M Notification :=
  store_call "delete" >>
  let! rows := get_db in
  match rows !! id with
  | None => throw (JsError Generic "Record to delete does not exist.")
  | Some n => set_db (delete id rows) >> ret n
  end.

(* =================================================================== *)
(** * services/notificationService                                      *)
(* =================================================================== *)

Definition createNotification
    (userId : string) (type : NotificationType) (title : string)
    (message link : option string) (metadata : option Metadata)
  : M Notification :=
  let! notification :=
    prisma_create userId type title message link metadata in
  log LInfo "Notification created" >>
  ret notification.

Definition createSystemNotification (userId title message : string)
  : M Notification :=
  createNotification userId SYSTEM_ALERT title (Some message) None None.

Record Page := mkPage {
  notifications : list Notification;
  total : nat;
  limit : nat;
  offset : nat
}.

(** [limit = 20] and [offset = 0] when the caller omits them. *)
Definition getNotifications (userId : string) (limit offset : option nat)
  : M Page :=
  let limit := default 20%nat limit in
  let offset := default 0%nat offset in
  let! both :=
    promise_all (prisma_findMany (mkWhere userId None) limit offset)
      (prisma_count (mkWhere userId None)) in
  let notifications := both.1 in
  let total := both.2 in
  ret {| notifications := notifications; total := total;
         limit := limit; offset := offset |}.

(** Returns [{ count }]; the embedding returns the number itself, here and
    in [markAllAsRead]. *)
Definition getUnreadCount (userId : string) : M nat :=
  let! count := prisma_count (mkWhere userId (Some false)) in
  ret count.

Definition markAsRead (userId notificationId : string) : M Notification :=
  let! notification := prisma_findUnique notificationId in
  match notification with
  | None => throw (notFound "Notification not found")
  | Some notification =>
      if bool_decide (n_userId notification ≠ userId) then
        throw (forbidden "Cannot mark another user's notification as read")
      else
        let! updated := prisma_update notificationId true in
        ret updated
  end.

Definition markAllAsRead (userId : string) : M nat :=
  let! count := prisma_updateMany (mkWhere userId (Some false)) true in
  log LInfo "Marked all notifications as read" >>
  ret count.

Definition deleteNotification (userId notificationId : string) : M unit :=
  let! notification := prisma_findUnique notificationId in
  match notification with
  | None => throw (notFound "Notification not found")
  | Some notification =>
      if bool_decide (n_userId notification ≠ userId) then
        throw (forbidden "Cannot delete another user's notification")
      else
        prisma_delete notificationId >>
        log LInfo "Notification deleted"
  end.

End Store.

(* ===================================================================== *)
(** * services/delivery                                                   *)
(* ===================================================================== *)

Record DeliveryPayload := mkDeliveryPayload {
  p_userId : string;
  p_type : NotificationType;
  p_title : string;
  p_message : option string;
  p_link : option string;
  p_metadata : option Metadata
}.

(** An entry of [results]; the channel is the string the caller passed. *)
Record DeliveryOutcome := mkDeliveryOutcome {
  o_channel : string;
  o_success : bool;
  o_error : option string
}.

#[global] Instance DeliveryOutcome_eq_dec : EqDecision DeliveryOutcome :=
  ltac:(solve_decision).

Definition getColorForType (type : NotificationType) : Z :=
  match type with
  | CLIP_APPROVED | CAMPAIGN_ACCEPTED | PAYMENT_COMPLETED
  | PAYMENT_CREDITED => 0x22c55e
  | CLIP_REJECTED | CAMPAIGN_REJECTED | PAYMENT_ERROR => 0xef4444
  | CAMPAIGN_ENDING | CAMPAIGN_ENDED | PAYMENT_PROCESSING => 0xf59e0b
  | NEW_CAMPAIGN | STUDIO_INVITE | CLIP_MILESTONE => 0x3b82f6
  | SYSTEM_ALERT | DISCORD_DISCONNECTED | WALLET_NOT_CONFIGURED
  | PROFILE_INCOMPLETE => 0x6b7280
  end.

(** [a || b] on optional strings. *)
Definition or_else (a : option string) (b : string) : string :=
  if truthy a then default b a else b.

(** The error an [axios] request is rejected with: a status outside 2xx,
    the timeout of the request running out, or a connection error with the
    cause the network stack reports. *)
Definition rejection (req : HttpRequest) (reply : HttpReply)
  : option Thrown :=
  match reply with
  | Responded status =>
      if (200 <=? status) && (status <? 300) then None
      else Some (JsError Generic
                   ("Request failed with status code " +:+ pretty status))
  | TimedOut =>
      Some (JsError Generic
              ("timeout of " +:+ pretty (r_timeout req) +:+ "ms exceeded"))
  | Unreachable cause => Some (JsError Generic cause)
  end.

Section Delivery.
Variable env : Env.

(** [axios.post(url, data, { timeout, headers })]: the promise rejects
    with [rejection req reply] when the reply is not a 2xx response. *)
Definition axios_post (req : HttpRequest) : M unit :=
  λ w,
    let k := http_calls w in
    let sent ok := {| db := db w; store_calls := store_calls w;
                      http_calls := S k;
                      trace := HttpPost req ok :: trace w |} in
    match rejection req (http_reply env k) with
    | None => (Ok tt, sent true)
    | Some error => (Throw error, sent false)
    end.

Definition deliverInApp (payload : DeliveryPayload) : M unit :=
  createNotification env (p_userId payload) (p_type payload)
    (p_title payload) (p_message payload) (p_link payload)
    (p_metadata payload) >>
  log LDebug "In-app notification delivered".

Definition discord_request (payload : DeliveryPayload) : HttpRequest :=
  {| r_url := default "" (discordServiceUrl env) +:+ "/messages/dm";
     r_userId := p_userId payload;
     r_embed :=
       {| e_title := p_title payload;
          e_description := or_else (p_message payload) "";
          e_color := getColorForType (p_type payload);
          e_fields :=
            if truthy (p_link payload) then
              Some [ {| f_name := "Link";
                        f_value := default "" (p_link payload);
                        f_inline := false |} ]
            else None |};
     r_timeout := 5000;
     r_contentType := "application/json" |}.

Definition deliverDiscord (payload : DeliveryPayload) : M unit :=
  if negb (truthy (discordServiceUrl env)) then
    log LWarn
      "Discord service URL not configured, skipping discord delivery"
  else
    try_catch
      (axios_post (discord_request payload) >>
       log LDebug "Discord notification delivered")
      (λ error,
         let message := error_message error in
         log LError "Failed to deliver discord notification" >>
         throw (JsError Generic ("Discord delivery failed: " +:+ message))).

Definition push (results : list DeliveryOutcome) (o : DeliveryOutcome)
  : list DeliveryOutcome := results ++ [o].

(** The body of the [for] loop of [deliver]: the [try] block with its
    [switch] over the channel, and the [catch] block. *)
Definition deliver_channel (payload : DeliveryPayload)
    (results : list DeliveryOutcome) (channel : string)
  : M (list DeliveryOutcome) :=
  try_catch
    (if bool_decide (channel = "in_app") then
       deliverInApp payload >>
       ret (push results (mkDeliveryOutcome channel true None))
     else if bool_decide (channel = "discord") then
       deliverDiscord payload >>
       ret (push results (mkDeliveryOutcome channel true None))
     else
       log LWarn "Unknown delivery channel" >>
       ret (push results
              (mkDeliveryOutcome channel false (Some "Unknown channel"))))
    (λ error,
       let errorMessage := error_message error in
       log LError "Delivery failed" >>
       ret (push results
              (mkDeliveryOutcome channel false (Some errorMessage)))).

Fixpoint deliver_loop (payload : DeliveryPayload) (channels : list string)
    (results : list DeliveryOutcome) : M (list DeliveryOutcome) :=
  match channels with
  | [] => ret results
  | channel :: rest =>
      let! results := deliver_channel payload results channel in
      deliver_loop payload rest results
  end.

Definition deliver (payload : DeliveryPayload) (channels : list string)
  : M (list DeliveryOutcome) :=
  deliver_loop payload channels [].

End Delivery.

(* ===================================================================== *)
(** * events/handlers                                                     *)
(* ===================================================================== *)

(** The payloads of [@clipdeck/events], with the fields the handlers
    read. *)
Record ClipApprovedPayload := mkClipApproved {
  ca_userId : string; ca_clipId : string; ca_campaignId : string;
  ca_paymentAmount : Number
}.

Record ClipRejectedPayload := mkClipRejected {
  cr_userId : string; cr_clipId : string; cr_campaignId : string;
  cr_reason : string
}.

Record CampaignStatusChangedPayload := mkCampaignStatusChanged {
  cs_campaignId : string; cs_oldStatus : string; cs_newStatus : string;
  cs_changedBy : option string
}.

Record CampaignEndedPayload := mkCampaignEnded {
  ce_endReason : string; ce_totalClips : Number; ce_totalViews : Number
}.

Record PayoutCompletedPayload := mkPayoutCompleted {
  pc_userId : string; pc_payoutId : string; pc_amount : Number;
  pc_transactionHash : string
}.

Record DisputeCreatedPayload := mkDisputeCreated {
  dc_userId : string; dc_disputeId : string; dc_clipId : string;
  dc_campaignId : string
}.

Record DisputeResolvedPayload := mkDisputeResolved {
  dr_userId : string; dr_disputeId : string; dr_clipId : string;
  dr_status : string; dr_resolution : string
}.

(** An inbound event: its routing key decides the payload type. *)
Inductive Event :=
| ClipApproved (payload : ClipApprovedPayload)
| ClipRejected (payload : ClipRejectedPayload)
| CampaignStatusChanged (payload : CampaignStatusChangedPayload)
| CampaignEnded (payload : CampaignEndedPayload)
| PayoutCompleted (payload : PayoutCompletedPayload)
| DisputeCreated (payload : DisputeCreatedPayload)
| DisputeResolved (payload : DisputeResolvedPayload).

Section Handlers.
Variable env : Env.

(** [context.ack()] *)
Definition ack : M unit := emit Ack.

Definition clip_approved_message (payload : ClipApprovedPayload) : string :=
  "Your clip has been approved! You earned $" +:+
  toFixed (big_number env)
    (number_div (ca_paymentAmount payload) (of_int 100)) 2 +:+ ".".

Definition on_CLIP_APPROVED (payload : ClipApprovedPayload) : M unit :=
  createNotification env (ca_userId payload) CLIP_APPROVED "Clip Approved"
    (Some (clip_approved_message payload))
    None
    (Some [ ("clipId", MStr (ca_clipId payload));
            ("campaignId", MStr (ca_campaignId payload));
            ("paymentAmount", MNum (ca_paymentAmount payload)) ]) >>
  ack.

Definition on_CLIP_REJECTED (payload : ClipRejectedPayload) : M unit :=
  createNotification env (cr_userId payload) CLIP_REJECTED "Clip Rejected"
    (Some ("Your clip was rejected. Reason: " +:+ cr_reason payload))
    None
    (Some [ ("clipId", MStr (cr_clipId payload));
            ("campaignId", MStr (cr_campaignId payload));
            ("reason", MStr (cr_reason payload)) ]) >>
  ack.

Definition on_CAMPAIGN_STATUS_CHANGED
    (payload : CampaignStatusChangedPayload) : M unit :=
  (if bool_decide (cs_newStatus payload = "PAUSED") then
     if truthy (cs_changedBy payload) then
       createNotification env (default "" (cs_changedBy payload))
         CAMPAIGN_ENDING "Campaign Paused"
         (Some "Campaign has been paused.")
         None
         (Some [ ("campaignId", MStr (cs_campaignId payload));
                 ("oldStatus", MStr (cs_oldStatus payload));
                 ("newStatus", MStr (cs_newStatus payload)) ]) >>
       ret tt
     else ret tt
   else ret tt) >>
  ack.

Definition on_CAMPAIGN_ENDED (payload : CampaignEndedPayload) : M unit :=
  createSystemNotification env "system" "Campaign Ended"
    ("Campaign ended (" +:+ ce_endReason payload +:+ "). Total clips: " +:+
     number_toString (big_number env) (ce_totalClips payload) +:+
     ", Total views: " +:+
     number_toString (big_number env) (ce_totalViews payload) +:+ ".") >>
  ack.

Definition on_PAYOUT_COMPLETED (payload : PayoutCompletedPayload) : M unit :=
  createNotification env (pc_userId payload) PAYMENT_COMPLETED
    "Payment Completed"
    (Some ("Your payout of $" +:+
           toFixed (big_number env)
             (number_div (pc_amount payload) (of_int 100)) 2 +:+
           " has been completed."))
    None
    (Some [ ("payoutId", MStr (pc_payoutId payload));
            ("amount", MNum (pc_amount payload));
            ("transactionHash", MStr (pc_transactionHash payload)) ]) >>
  ack.

Definition on_DISPUTE_CREATED (payload : DisputeCreatedPayload) : M unit :=
  createNotification env (dc_userId payload) SYSTEM_ALERT "Dispute Created"
    (Some "Your dispute has been submitted and is under review.")
    None
    (Some [ ("disputeId", MStr (dc_disputeId payload));
            ("clipId", MStr (dc_clipId payload));
            ("campaignId", MStr (dc_campaignId payload)) ]) >>
  ack.

Definition on_DISPUTE_RESOLVED (payload : DisputeResolvedPayload) : M unit :=
  let statusLabel :=
    if bool_decide (dr_status payload = "RESOLVED")
    then "resolved in your favor" else "rejected" in
  createNotification env (dr_userId payload) SYSTEM_ALERT "Dispute Resolved"
    (Some ("Your dispute has been " +:+ statusLabel +:+ ". Resolution: " +:+
           dr_resolution payload))
    None
    (Some [ ("disputeId", MStr (dr_disputeId payload));
            ("clipId", MStr (dr_clipId payload));
            ("status", MStr (dr_status payload));
            ("resolution", MStr (dr_resolution payload)) ]) >>
  ack.

(** [consumer.on(EVENT_TYPES.X, ...)]: the handler body bound to each
    event type. *)
Definition handle (event : Event) : M unit :=
  match event with
  | ClipApproved payload => on_CLIP_APPROVED payload
  | ClipRejected payload => on_CLIP_REJECTED payload
  | CampaignStatusChanged payload => on_CAMPAIGN_STATUS_CHANGED payload
  | CampaignEnded payload => on_CAMPAIGN_ENDED payload
  | PayoutCompleted payload => on_PAYOUT_COMPLETED payload
  | DisputeCreated payload => on_DISPUTE_CREATED payload
  | DisputeResolved payload => on_DISPUTE_RESOLVED payload
  end.

End Handlers.

(* ===================================================================== *)
(** * routes/notifications                                                *)
(* ===================================================================== *)

(** The body of [POST /mark-read] once [validateBody] has accepted it. *)
Record MarkReadBody := mkMarkReadBody {
  b_notificationId : option string;
  b_markAll : option bool
}.

(** What a route hands back to the framework: the value it returns, the
    empty 204 reply of the delete route, or the error it passes to
    [sendError]. *)
Inductive ReplyBody :=
| BPage (page : Page)
| BCount (count : nat)
| BNotification (notification : Notification)
| BMessage (text : string).

Inductive Reply :=
| Sent (body : ReplyBody)
| NoContent
| SentError (error : Thrown).

(** A synchronous call that returns or throws without touching the
    world: [requireAuth], [validateQuery], [validateBody]. *)
Definition lift {A} (o : Outcome A) : M A := λ w, (o, w).

Section Routes.
Variable env : Env.

(** [GET /]: [auth] is what [requireAuth(request)] gives (the user
    identifier, or the error it throws), [query] what
    [validateQuery(listQuerySchema, request.query)] gives. *)
Definition route_list (auth : Outcome string) (query : Outcome (nat * nat))
  : M Reply :=
  try_catch
    (let! user := lift auth in
     let! query := lift query in
     let! result :=
       getNotifications env user (Some query.1) (Some query.2) in
     ret (Sent (BPage result)))
    (λ error, ret (SentError error)).

(** [GET /unread-count] *)
Definition route_unread_count (auth : Outcome string) : M Reply :=
  try_catch
    (let! user := lift auth in
     let! result := getUnreadCount env user in
     ret (Sent (BCount result)))
    (λ error, ret (SentError error)).

(** [POST /mark-read] *)
Definition route_mark_read (auth : Outcome string)
    (body : Outcome MarkReadBody) : M Reply :=
  try_catch
    (let! user := lift auth in
     let! body := lift body in
     if bool_decide (b_markAll body = Some true) then
       let! result := markAllAsRead env user in
       ret (Sent (BCount result))
     else if truthy (b_notificationId body) then
       let! result :=
         markAsRead env user (default "" (b_notificationId body)) in
       ret (Sent (BNotification result))
     else
       ret (Sent (BMessage
                    "No action taken. Provide notificationId or markAll: true.")))
    (λ error, ret (SentError error)).

(** [DELETE /:id] *)
Definition route_delete (auth : Outcome string) (id : string) : M Reply :=
  try_catch
    (let! user := lift auth in
     deleteNotification env user id >>
     ret NoContent)
    (λ error, ret (SentError error)).

End Routes.

(* ===================================================================== *)
(** * The operations of the service, as its callers invoke them           *)
(* ===================================================================== *)

Inductive ServiceOp :=
| OpCreate (userId : string) (type : NotificationType) (title : string)
    (message link : option string) (metadata : option Metadata)
| OpList (caller : string) (limit offset : option nat)
| OpUnreadCount (caller : string)
| OpMarkRead (caller notificationId : string)
| OpMarkAll (caller : string)
| OpDelete (caller notificationId : string).

(** The user an operation is invoked for. *)
Definition invoked_by (op : ServiceOp) : string :=
  match op with
  | OpCreate userId _ _ _ _ _ => userId
  | OpList caller _ _ | OpUnreadCount caller | OpMarkRead caller _
  | OpMarkAll caller | OpDelete caller _ => caller
  end.

(** The world an operation leaves behind, whatever it returns or throws. *)
Definition after (env : Env) (op : ServiceOp) (w : World) : World :=
  match op with
  | OpCreate userId type title message link metadata =>
      (createNotification env userId type title message link metadata w).2
  | OpList caller limit offset => (getNotifications env caller limit offset w).2
  | OpUnreadCount caller => (getUnreadCount env caller w).2
  | OpMarkRead caller id => (markAsRead env caller id w).2
  | OpMarkAll caller => (markAllAsRead env caller w).2
  | OpDelete caller id => (deleteNotification env caller id w).2
  end.

(** A store that answers every call. *)
Definition reliable (env : Env) : Prop := ∀ k, store_fault env k = None.

(** The rows of a user, and the unread ones among them. *)
Definition owned_by (user : string) (rows : gmap string Notification)
  : gmap string Notification :=
  filter (λ kv, n_userId kv.2 = user) rows.

Definition unread_of (user : string) (rows : gmap string Notification)
  : gmap string Notification :=
  filter (λ kv, n_userId kv.2 = user ∧ n_isRead kv.2 = false) rows.

(** The rows of [rows] that [rows'] no longer holds as they were. *)
Definition changed (rows rows' : gmap string Notification)
  : gmap string Notification :=
  filter (λ kv, rows' !! kv.1 ≠ Some kv.2) rows.

(** A fixed environment and table for the examples: the store and the
    discord service answer every call. *)
Definition env0 : Env :=
  {| discordServiceUrl := Some "http://discord-service:3005";
     big_number := λ _, "";
     store_fault := λ _, None;
     gen_id := λ k, "n" +:+ pretty k;
     clock := λ k, 1000 + Z.of_nat k;
     http_reply := λ _, Responded 200 |}.

Definition row (id user : string) (read : bool) (at_ : Z) : Notification :=
  {| n_id := id; n_userId := user; n_type := SYSTEM_ALERT;
     n_title := "Dispute Created"; n_message := None; n_link := None;
     n_metadata := None; n_isRead := read; n_createdAt := at_ |}.

Definition rows0 : gmap string Notification :=
  <["a1" := row "a1" "alice" false 10]>
    (<["a2" := row "a2" "alice" true 11]>
       (<["a3" := row "a3" "alice" false 12]>
          (<["b1" := row "b1" "bob" false 13]> ∅))).

Definition w0 : World :=
  {| db := rows0; store_calls := 0; http_calls := 0; trace := [] |}.

(** The same environment with another discord configuration and service,
    and with another store. *)
Definition with_discord (env : Env) (url : option string)
    (replies : nat → HttpReply) : Env :=
  {| discordServiceUrl := url; big_number := big_number env;
     store_fault := store_fault env; gen_id := gen_id env;
     clock := clock env; http_reply := replies |}.

Definition with_store (env : Env) (faults : nat → option Thrown)
    (ids : nat → string) (times : nat → Z) : Env :=
  {| discordServiceUrl := discordServiceUrl env;
     big_number := big_number env;
     store_fault := faults; gen_id := ids; clock := times;
     http_reply := http_reply env |}.

(** The outcomes recorded for one channel, and how often a channel was
    requested. *)
Definition on_channel (channel : string) (results : list DeliveryOutcome)
  : list DeliveryOutcome :=
  filter (λ o, o_channel o = channel) results.

Definition occurrences (channel : string) (channels : list string) : nat :=
  length (filter (λ c, c = channel) channels).

(** An outcome that is a success, or a failure with a non-empty
    description. *)
Definition described (o : DeliveryOutcome) : Prop :=
  match o_success o with
  | true => o_error o = None
  | false => ∃ text, o_error o = Some text ∧ text ≠ ""
  end.

(** The errors of the store carry a message. *)
Definition store_errors_have_message (env : Env) : Prop :=
  ∀ k kind text, store_fault env k = Some (JsError kind text) → text ≠ "".

Definition payload0 : DeliveryPayload :=
  {| p_userId := "alice"; p_type := CLIP_APPROVED; p_title := "Clip Approved";
     p_message := Some "Your clip has been approved! You earned $25.50.";
     p_link := None; p_metadata := None |}.

(** The discord service cannot be reached. *)
Definition env_unreachable : Env :=
  with_discord env0 (Some "http://discord-service:3005")
    (λ _, Unreachable "connect ECONNREFUSED 10.0.0.7:3005").


(** The store is down, and reports it. *)
Definition env_store_down : Env :=
  with_store env0
    (λ _, Some (JsError Generic "Can't reach database server"))
    (gen_id env0) (clock env0).

(** The store fails with an error that has no message. *)
Definition env_store_silent : Env :=
  with_store env0 (λ _, Some (JsError Generic "")) (gen_id env0) (clock env0).

(** [changedBy] is present: the handler tests [if (payload.changedBy)],
    which holds for a non-empty string. *)
Definition present (s : option string) : Prop :=
  ∃ user, s = Some user ∧ user ≠ "".

(** The error of the store when the generated identifier is taken. *)
Definition unique_violation : Thrown :=
  JsError Generic "Unique constraint failed on the fields: (`id`)".

(** Example events. *)
Definition clip0 : ClipApprovedPayload :=
  {| ca_userId := "alice"; ca_clipId := "clip-1"; ca_campaignId := "camp-1";
     ca_paymentAmount := of_int 2550 |}.

Definition paused0 : CampaignStatusChangedPayload :=
  {| cs_campaignId := "camp-1"; cs_oldStatus := "ACTIVE";
     cs_newStatus := "PAUSED"; cs_changedBy := Some "bob" |}.

Definition activated0 : CampaignStatusChangedPayload :=
  {| cs_campaignId := "camp-1"; cs_oldStatus := "PAUSED";
     cs_newStatus := "ACTIVE"; cs_changedBy := Some "bob" |}.

(** An amount of integer minor units printed in major units: the amount
    divided by 100, a point, and the two digits of the remainder. *)
Definition cents (n : Z) : string :=
  pretty (Z.abs n mod 100 / 10) +:+ pretty (Z.abs n mod 100 mod 10).

Definition major_units (n : Z) : string :=
  (if n <? 0 then "-" else "") +:+ pretty (Z.abs n / 100) +:+ "." +:+ cents n.

Definition contains (part whole : string) : Prop :=
  ∃ before after, whole = before +:+ part +:+ after.

(** The two shapes of an outcome. *)
Definition delivered (channel : string) : DeliveryOutcome :=
  mkDeliveryOutcome channel true None.

Definition failed (channel text : string) : DeliveryOutcome :=
  mkDeliveryOutcome channel false (Some text).

(** A reply that is a 2xx response. *)
Definition accepted (reply : HttpReply) : Prop :=
  ∃ status, reply = Responded status ∧ 200 ≤ status < 300.

(** No request is recorded in a stretch of the trace. *)
Definition no_request (effects : list Effect) : Prop :=
  ∀ req ok, HttpPost req ok ∉ effects.

(** Every row is stored under its own identifier. *)
Definition keyed (rows : gmap string Notification) : Prop :=
  ∀ id n, rows !! id = Some n → n_id n = id.

(** The world after [calls] more answered calls to the store and the
    effects [effects], with the table [rows]. *)
Definition advance (w : World) (rows : gmap string Notification)
    (calls : nat) (effects : list Effect) : World :=
  {| db := rows; store_calls := (calls + store_calls w)%nat;
     http_calls := http_calls w; trace := effects ++ trace w |}.

(** The successful outcomes among [results]. *)
Definition successes (results : list DeliveryOutcome) : list DeliveryOutcome :=
  filter (λ o, o_success o = true) results.

(** The identifiers the store generates from its [k]-th call on are new
    to the table and pairwise distinct. *)
Definition fresh_ids (env : Env) (w : World) : Prop :=
  (∀ k, (store_calls w ≤ k)%nat → db w !! gen_id env k = None) ∧
  (∀ j k, (store_calls w ≤ j)%nat → (store_calls w ≤ k)%nat →
          gen_id env j = gen_id env k → j = k).

(** Two rows with the same content: they differ at most in the identifier
    and the creation time the store gave them. *)
Definition same_content (a b : Notification) : Prop :=
  n_userId a = n_userId b ∧ n_type a = n_type b ∧ n_title a = n_title b ∧
  n_message a = n_message b ∧ n_link a = n_link b ∧
  n_metadata a = n_metadata b ∧ n_isRead a = n_isRead b.

(** The five colours of the embeds. *)
Definition palette : list Z :=
  [0x22c55e; 0xef4444; 0xf59e0b; 0x3b82f6; 0x6b7280].

(** Whether a computation threw, and whether an operation of the service
    does in a given world. *)
Definition threw {A} (r : Outcome A * World) : bool :=
  match r.1 with
  | Throw _ => true
  | Ok _ => false
  end.

Definition fails (env : Env) (op : ServiceOp) (w : World) : bool :=
  match op with
  | OpCreate userId type title message link metadata =>
      threw (createNotification env userId type title message link metadata w)
  | OpList caller limit offset =>
      threw (getNotifications env caller limit offset w)
  | OpUnreadCount caller => threw (getUnreadCount env caller w)
  | OpMarkRead caller id => threw (markAsRead env caller id w)
  | OpMarkAll caller => threw (markAllAsRead env caller w)
  | OpDelete caller id => threw (deleteNotification env caller id w)
  end.

(** The recipient, type and title of the notification a handler creates
    for an event, if it creates one. *)
Definition addressing (event : Event)
  : option (string * NotificationType * string) :=
  match event with
  | ClipApproved p => Some (ca_userId p, CLIP_APPROVED, "Clip Approved")
  | ClipRejected p => Some (cr_userId p, CLIP_REJECTED, "Clip Rejected")
  | CampaignStatusChanged p =>
      if bool_decide (cs_newStatus p = "PAUSED") && truthy (cs_changedBy p)
      then Some (default "" (cs_changedBy p), CAMPAIGN_ENDING,
                 "Campaign Paused")
      else None
  | CampaignEnded p => Some ("system", SYSTEM_ALERT, "Campaign Ended")
  | PayoutCompleted p =>
      Some (pc_userId p, PAYMENT_COMPLETED, "Payment Completed")
  | DisputeCreated p => Some (dc_userId p, SYSTEM_ALERT, "Dispute Created")
  | DisputeResolved p => Some (dr_userId p, SYSTEM_ALERT, "Dispute Resolved")
  end.

(** The delivery strategy the [switch] of [deliver] selects for a channel
    identifier, if it knows the identifier. *)
Definition strategy (env : Env) (payload : DeliveryPayload)
    (channel : string) : option (M unit) :=
  if bool_decide (channel = "in_app") then Some (deliverInApp env payload)
  else if bool_decide (channel = "discord")
       then Some (deliverDiscord env payload)
       else None.

(** What is to be recorded for a channel attempted in the world [w]:
    a success when its strategy returns, a failure with the message of
    the error when it throws, ['Unknown channel'] when there is none. *)
Definition channel_outcome (env : Env) (payload : DeliveryPayload)
    (channel : string) (w : World) : DeliveryOutcome :=
  match strategy env payload channel with
  | None => failed channel "Unknown channel"
  | Some attempt =>
      match (attempt w).1 with
      | Ok _ => delivered channel
      | Throw error => failed channel (error_message error)
      end
  end.

(** The outcomes of the channels of a request, each attempted in the
    world the channels before it left behind. *)
Fixpoint recorded (env : Env) (payload : DeliveryPayload)
    (channels : list string) (w : World) : list DeliveryOutcome :=
  match channels with
  | [] => []
  | channel :: rest =>
      channel_outcome env payload channel w ::
      recorded env payload rest (deliver_channel env payload [] channel w).2
  end.

(** No two notifications of the user were created at the same time. *)
Definition distinct_times (user : string) (rows : gmap string Notification)
  : Prop :=
  ∀ id1 id2 n1 n2,
    rows !! id1 = Some n1 → rows !! id2 = Some n2 →
    n_userId n1 = user → n_userId n2 = user →
    n_createdAt n1 = n_createdAt n2 → id1 = id2.

(** A page the store may answer [findMany] with: the rows of the user in
    an order that is newest first, whichever way it orders rows of equal
    creation time, cut to [limit] rows after the first [skip]. *)
Definition may_answer (user : string) (rows : gmap string Notification)
    (limit skip : nat) (page : list Notification) : Prop :=
  ∃ l, l ≡ₚ (map_to_list (owned_by user rows)).*2 ∧
       StronglySorted newer_first l ∧
       page = take limit (drop skip l).

(* ===================================================================== *)
(** * The store                                                           *)
(* ===================================================================== *)

Lemma matches_true wh n :
  matches wh n = true ↔
  n_userId n = where_userId wh ∧
  (∀ b, where_isRead wh = Some b → n_isRead n = b).
Proof.
  unfold matches. rewrite andb_true_iff, bool_decide_eq_true.
  destruct (where_isRead wh) as [b|].
  - rewrite bool_decide_eq_true. split.
    + intros [Hu Hr]. split; [exact Hu|]. intros b' Hb. congruence.
    + intros [Hu Hr]. split; [exact Hu|]. by apply Hr.
  - split; intros [Hu Hr]; (split; [exact Hu|]); [intros b' Hb|]; done.
Qed.

Lemma select_owned user rows :
  select (mkWhere user None) rows = owned_by user rows.
Proof.
  apply map_eq. intros i. apply option_eq. intros n.
  unfold select, owned_by. rewrite !map_lookup_filter_Some.
  rewrite matches_true. simpl. split.
  - intros [Hi [Hu _]]. done.
  - intros [Hi Hu]. split; [done|]. split; [done|]. intros b Hb. done.
Qed.

Lemma select_unread user rows :
  select (mkWhere user (Some false)) rows = unread_of user rows.
Proof.
  apply map_eq. intros i. apply option_eq. intros n.
  unfold select, unread_of. rewrite !map_lookup_filter_Some.
  rewrite matches_true. simpl. split.
  - intros [Hi [Hu Hr]]. split; [done|]. split; [done|]. by apply Hr.
  - intros [Hi [Hu Hr]]. split; [done|]. split; [done|].
    intros b Hb. congruence.
Qed.

Lemma set_isRead_same b n : same_but_isRead n (set_isRead b n).
Proof. unfold same_but_isRead. simpl. tauto. Qed.

Lemma same_but_isRead_refl n : same_but_isRead n n.
Proof. unfold same_but_isRead. tauto. Qed.

Lemma store_call_ok env op w :
  store_fault env (store_calls w) = None →
  store_call env op w =
    (Ok (store_calls w),
     {| db := db w; store_calls := S (store_calls w);
        http_calls := http_calls w;
        trace := StoreCall op true :: trace w |}).
Proof. intros H. unfold store_call. by rewrite H. Qed.

(** Unfolds a service function down to the table. *)
Ltac run_store :=
  unfold markAsRead, markAllAsRead, deleteNotification, getNotifications,
    getUnreadCount, createSystemNotification, createNotification,
    prisma_create, prisma_findMany, prisma_count, prisma_findUnique,
    prisma_update, prisma_updateMany, prisma_delete, promise_all, log, emit,
    bind, ret, throw, get_db, set_db, notFound, forbidden;
  cbn [db store_calls http_calls trace].

(* ===================================================================== *)
(** * services/notificationService: markAsRead                            *)
(* ===================================================================== *)

(** A failed [markAsRead] leaves the table as it was, also when the store
    itself fails. *)
Lemma markAsRead_throw_db env user id w t w' :
  markAsRead env user id w = (Throw t, w') → db w' = db w.
Proof.
  run_store. unfold store_call.
  destruct (store_fault env (store_calls w)); simpl; [naive_solver|].
  destruct (db w !! id) as [n|] eqn:Hn; simpl; [|naive_solver].
  case_bool_decide; simpl; [naive_solver|].
  destruct (store_fault env (S (store_calls w))); simpl; [naive_solver|].
  rewrite Hn. simpl. naive_solver.
Qed.

(** C7. [markAsRead] fails with NotFound when no notification has the
    identifier, fails with Forbidden when the notification belongs to
    another user, in both cases without altering any stored record, and
    otherwise sets the notification's [isRead] to true and returns the
    updated record. *)
Theorem markAsRead_spec env user id w :
  reliable env →
  ∃ w',
    match db w !! id with
    | None =>
        markAsRead env user id w =
          (Throw (JsError NotFound "Notification not found"), w') ∧
        db w' = db w
    | Some n =>
        if decide (n_userId n = user) then
          markAsRead env user id w = (Ok (set_isRead true n), w') ∧
          db w' = <[id := set_isRead true n]> (db w) ∧
          n_isRead (set_isRead true n) = true
        else
          markAsRead env user id w =
            (Throw (JsError Forbidden
                      "Cannot mark another user's notification as read"),
             w') ∧
          db w' = db w
    end.
Proof.
  intros Hrel. run_store.
  rewrite store_call_ok by apply Hrel. simpl.
  destruct (db w !! id) as [n|] eqn:Hn.
  - destruct (decide (n_userId n = user)) as [Hu|Hu].
    + rewrite bool_decide_eq_false_2 by naive_solver.
      rewrite store_call_ok by apply Hrel. simpl. rewrite Hn. simpl.
      eexists. split; [reflexivity|]. done.
    + rewrite bool_decide_eq_true_2 by done. eexists. done.
  - eexists. done.
Qed.

Lemma markAsRead_spec_witness :
  reliable env0 ∧
  (∃ w', markAsRead env0 "alice" "zz" w0 =
           (Throw (JsError NotFound "Notification not found"), w') ∧
         db w' = db w0) ∧
  (∃ w', markAsRead env0 "alice" "b1" w0 =
           (Throw (JsError Forbidden
                     "Cannot mark another user's notification as read"), w') ∧
         db w' = db w0) ∧
  (∃ w', markAsRead env0 "alice" "a1" w0 = (Ok (row "a1" "alice" true 10), w') ∧
         db w' = <["a1" := row "a1" "alice" true 10]> (db w0) ∧
         n_isRead (row "a1" "alice" true 10) = true).
Proof.
  assert (Hrel : reliable env0) by (intros k; reflexivity).
  split; [exact Hrel|].
  split; [exact (markAsRead_spec env0 "alice" "zz" w0 Hrel)|].
  split; [exact (markAsRead_spec env0 "alice" "b1" w0 Hrel)|].
  exact (markAsRead_spec env0 "alice" "a1" w0 Hrel).
Defined.

(* ===================================================================== *)
(** * services/notificationService: markAllAsRead and getUnreadCount      *)
(* ===================================================================== *)

Lemma lookup_mark_all user (rows : gmap string Notification) id :
  ((λ n, if matches (mkWhere user (Some false)) n
         then set_isRead true n else n) <$> rows) !! id =
  (λ n, if matches (mkWhere user (Some false)) n
        then set_isRead true n else n) <$> (rows !! id).
Proof. apply lookup_fmap. Qed.

Lemma matches_unread user n :
  matches (mkWhere user (Some false)) n = true ↔
  n_userId n = user ∧ n_isRead n = false.
Proof.
  rewrite matches_true. simpl. split.
  - intros [Hu Hr]. split; [done|]. by apply Hr.
  - intros [Hu Hr]. split; [done|]. intros b Hb. congruence.
Qed.

(** After the update no row of the user is unread. *)
Lemma unread_of_mark_all user (rows : gmap string Notification) :
  unread_of user
    ((λ n, if matches (mkWhere user (Some false)) n
           then set_isRead true n else n) <$> rows) = ∅.
Proof.
  apply map_eq. intros id. rewrite lookup_empty.
  unfold unread_of. apply map_lookup_filter_None_2.
  destruct (_ !! id) as [n'|] eqn:Hn'; [right|by left].
  intros x [= <-]. simpl.
  rewrite lookup_mark_all in Hn'.
  destruct (rows !! id) as [n|]; [|done]. simpl in Hn'.
  injection Hn' as <-.
  destruct (matches _ n) eqn:Hm; simpl.
  - intros [_ ?]. done.
  - intros Hc. apply matches_unread in Hc. congruence.
Qed.

(** The rows the update matched are the rows it changed. *)
Lemma changed_mark_all user (rows : gmap string Notification) :
  changed rows
    ((λ n, if matches (mkWhere user (Some false)) n
           then set_isRead true n else n) <$> rows) =
  unread_of user rows.
Proof.
  apply map_eq. intros id. apply option_eq. intros n.
  unfold changed, unread_of. rewrite !map_lookup_filter_Some. simpl.
  rewrite lookup_mark_all.
  split; intros [Hn Hc]; (split; [done|]); rewrite Hn in *; simpl in *.
  - destruct (matches _ n) eqn:Hm; [by apply matches_unread|done].
  - apply matches_unread in Hc as Hm. rewrite Hm.
    intros [= Heq]. destruct Hc as [_ Hr].
    rewrite <- Heq in Hr. done.
Qed.

(** C8. [markAllAsRead] sets every previously unread notification of the
    caller to read, leaves the notifications of every other user
    unchanged, and returns the number of notifications it changed;
    [getUnreadCount] for the caller is 0 immediately afterwards. *)
Theorem markAllAsRead_spec env user w :
  reliable env →
  ∃ count w',
    markAllAsRead env user w = (Ok count, w') ∧
    (∀ id n, db w !! id = Some n → n_userId n = user → n_isRead n = false →
             db w' !! id = Some (set_isRead true n)) ∧
    (∀ id n, db w !! id = Some n → n_userId n ≠ user →
             db w' !! id = Some n) ∧
    dom (db w') = dom (db w) ∧
    count = size (changed (db w) (db w')) ∧
    ∃ w'', getUnreadCount env user w' = (Ok 0%nat, w'') ∧ db w'' = db w'.
Proof.
  intros Hrel. run_store.
  rewrite store_call_ok by apply Hrel. cbn [db store_calls http_calls trace].
  eexists _, _. split; [reflexivity|]. cbn [db store_calls http_calls trace].
  split; [|split; [|split; [|split]]].
  - intros id n Hn Hu Hr. rewrite lookup_mark_all, Hn. simpl.
    by rewrite (proj2 (matches_unread user n) (conj Hu Hr)).
  - intros id n Hn Hu. rewrite lookup_mark_all, Hn. simpl.
    destruct (matches _ n) eqn:Hm; [|done].
    apply matches_unread in Hm as [? _]. done.
  - apply dom_fmap_L.
  - by rewrite changed_mark_all, select_unread.
  - rewrite store_call_ok by apply Hrel. cbn [db store_calls http_calls trace].
    rewrite select_unread, unread_of_mark_all, map_size_empty.
    eexists. split; reflexivity.
Qed.

Lemma markAllAsRead_spec_witness :
  reliable env0 ∧
  ∃ count w',
    markAllAsRead env0 "alice" w0 = (Ok count, w') ∧
    count = 2%nat ∧
    db w' !! "a1" = Some (row "a1" "alice" true 10) ∧
    db w' !! "b1" = Some (row "b1" "bob" false 13) ∧
    (getUnreadCount env0 "alice" w').1 = Ok 0%nat.
Proof.
  assert (Hrel : reliable env0) by (intros k; reflexivity).
  split; [exact Hrel|].
  destruct (markAllAsRead_spec env0 "alice" w0 Hrel)
    as (count & w' & Hrun & Hmine & Hother & _ & Hcount & w'' & Hunread & _).
  exists count, w'. split; [exact Hrun|].
  split.
  - rewrite Hcount. injection Hrun as _ <-. vm_compute. reflexivity.
  - split; [by apply (Hmine "a1" (row "a1" "alice" false 10))|].
    split; [by apply (Hother "b1" (row "b1" "bob" false 13))|].
    by rewrite Hunread.
Defined.

(* ===================================================================== *)
(** * services/notificationService: getNotifications                      *)
(* ===================================================================== *)

(** C10. The [total] that [getNotifications] returns is the number of
    notifications of the user in the store, whatever [limit] and [offset]
    are; the page itself holds at most [limit] of the notifications that
    follow the first [offset]. *)
Theorem getNotifications_total env user limit offset w :
  reliable env →
  ∃ page w',
    getNotifications env user limit offset w = (Ok page, w') ∧
    total page = size (owned_by user (db w)) ∧
    length (notifications page) =
      (default 20 limit `min` (total page - default 0 offset))%nat ∧
    db w' = db w.
Proof.
  intros Hrel. run_store.
  rewrite store_call_ok by apply Hrel. simpl.
  rewrite store_call_ok by apply Hrel. simpl.
  eexists _, _. split; [reflexivity|]. simpl.
  rewrite select_owned. split; [done|]. split; [|done].
  rewrite length_take, length_drop.
  rewrite (Permutation_length (merge_sort_Permutation _ _)).
  by rewrite length_fmap, length_map_to_list.
Qed.

Lemma getNotifications_total_witness :
  reliable env0 ∧
  ∃ page w',
    getNotifications env0 "alice" (Some 1%nat) (Some 1%nat) w0 =
      (Ok page, w') ∧
    total page = 3%nat ∧
    length (notifications page) = 1%nat.
Proof.
  assert (Hrel : reliable env0) by (intros k; reflexivity).
  split; [exact Hrel|].
  destruct (getNotifications_total env0 "alice" (Some 1%nat) (Some 1%nat)
              w0 Hrel)
    as (page & w' & Hrun & Htotal & Hlen & _).
  exists page, w'. split; [exact Hrun|].
  assert (Hsize : size (owned_by "alice" (db w0)) = 3%nat)
    by (vm_compute; reflexivity).
  rewrite Hlen, Htotal, Hsize. done.
Defined.

(* ===================================================================== *)
(** * What each operation does to the table                               *)
(* ===================================================================== *)

Lemma createNotification_db env userId type title message link metadata w :
  let w' := (createNotification env userId type title message link metadata
               w).2 in
  db w' = db w ∨
  (db w !! gen_id env (store_calls w) = None ∧
   db w' = <[gen_id env (store_calls w) :=
               new_row env (store_calls w) userId type title message link
                 metadata]> (db w)).
Proof.
  run_store. unfold store_call.
  destruct (store_fault env (store_calls w)); cbn; [by left|].
  destruct (db w !! gen_id env (store_calls w)) eqn:Hid; cbn; [by left|].
  right. done.
Qed.

Lemma getNotifications_db env user limit offset w :
  db (getNotifications env user limit offset w).2 = db w.
Proof.
  run_store. unfold store_call.
  destruct (store_fault env (store_calls w)); cbn;
    destruct (store_fault env (S (store_calls w))); cbn; done.
Qed.

Lemma getUnreadCount_db env user w :
  db (getUnreadCount env user w).2 = db w.
Proof.
  run_store. unfold store_call.
  destruct (store_fault env (store_calls w)); cbn; done.
Qed.

Lemma markAsRead_db env user id w :
  let w' := (markAsRead env user id w).2 in
  db w' = db w ∨
  ∃ n, db w !! id = Some n ∧ n_userId n = user ∧
       db w' = <[id := set_isRead true n]> (db w).
Proof.
  run_store. unfold store_call.
  destruct (store_fault env (store_calls w)); cbn; [by left|].
  destruct (db w !! id) as [n|] eqn:Hn; cbn; [|by left].
  case_bool_decide as Hu; cbn; [by left|].
  destruct (store_fault env (S (store_calls w))); cbn; [by left|].
  rewrite Hn. cbn. right. exists n.
  split; [done|]. split; [|done].
  by destruct (decide (n_userId n = user)).
Qed.

Lemma markAllAsRead_db env user w :
  let w' := (markAllAsRead env user w).2 in
  db w' = db w ∨
  db w' = (λ n, if matches (mkWhere user (Some false)) n
                then set_isRead true n else n) <$> db w.
Proof.
  run_store. unfold store_call.
  destruct (store_fault env (store_calls w)); cbn; [by left|by right].
Qed.

Lemma deleteNotification_db env user id w :
  let w' := (deleteNotification env user id w).2 in
  db w' = db w ∨
  ∃ n, db w !! id = Some n ∧ n_userId n = user ∧ db w' = delete id (db w).
Proof.
  run_store. unfold store_call.
  destruct (store_fault env (store_calls w)); cbn; [by left|].
  destruct (db w !! id) as [n|] eqn:Hn; cbn; [|by left].
  case_bool_decide as Hu; cbn; [by left|].
  destruct (store_fault env (S (store_calls w))); cbn; [by left|].
  rewrite Hn. cbn. right. exists n.
  split; [done|]. split; [|done].
  by destruct (decide (n_userId n = user)).
Qed.

(* ===================================================================== *)
(** * The invariant of stored notifications                               *)
(* ===================================================================== *)

(** C9. Whatever operation of the service runs (create, list,
    unread-count, mark-read, mark-all-read, delete), a stored notification
    keeps every field other than [isRead], [userId] included, and it is
    changed or deleted only by an operation invoked by its owner: a change
    comes from a mark-read or mark-all-read of the owner, a deletion from
    the owner's delete of that identifier. *)
Theorem stored_notification_invariant env op w id n :
  db w !! id = Some n →
  match db (after env op w) !! id with
  | Some n' =>
      same_but_isRead n n' ∧
      (n' ≠ n →
       invoked_by op = n_userId n ∧
       (op = OpMarkRead (n_userId n) id ∨ op = OpMarkAll (n_userId n)))
  | None => op = OpDelete (n_userId n) id
  end.
Proof.
  intros Hn.
  destruct op as [u ty ti me li md|u l o|u|u i|u|u i]; unfold after.
  - destruct (createNotification_db env u ty ti me li md w) as [->|[Hfresh ->]].
    + rewrite Hn. split; [apply same_but_isRead_refl|done].
    + rewrite lookup_insert_ne by congruence.
      rewrite Hn. split; [apply same_but_isRead_refl|done].
  - rewrite getNotifications_db, Hn.
    split; [apply same_but_isRead_refl|done].
  - rewrite getUnreadCount_db, Hn.
    split; [apply same_but_isRead_refl|done].
  - destruct (markAsRead_db env u i w) as [->|(n0 & Hn0 & Hu & ->)].
    + rewrite Hn. split; [apply same_but_isRead_refl|done].
    + destruct (decide (i = id)) as [->|Hne].
      * rewrite lookup_insert_eq.
        assert (n0 = n) as -> by congruence.
        split; [apply set_isRead_same|]. intros _. cbn.
        split; [done|]. left. by rewrite Hu.
      * rewrite lookup_insert_ne by done. rewrite Hn.
        split; [apply same_but_isRead_refl|done].
  - destruct (markAllAsRead_db env u w) as [->| ->].
    + rewrite Hn. split; [apply same_but_isRead_refl|done].
    + rewrite lookup_fmap, Hn. cbn.
      destruct (matches _ n) eqn:Hm.
      * apply matches_unread in Hm as [Hu _].
        split; [apply set_isRead_same|]. intros _.
        split; [done|]. right. by rewrite Hu.
      * split; [apply same_but_isRead_refl|done].
  - destruct (deleteNotification_db env u i w) as [->|(n0 & Hn0 & Hu & ->)].
    + rewrite Hn. split; [apply same_but_isRead_refl|done].
    + destruct (decide (i = id)) as [->|Hne].
      * rewrite lookup_delete_eq.
        assert (n0 = n) as -> by congruence. by rewrite Hu.
      * rewrite lookup_delete_ne by done. rewrite Hn.
        split; [apply same_but_isRead_refl|done].
Qed.

Lemma stored_notification_invariant_witness :
  db w0 !! "b1" = Some (row "b1" "bob" false 13) ∧
  db (after env0 (OpMarkAll "alice") w0) !! "b1" =
    Some (row "b1" "bob" false 13) ∧
  db (after env0 (OpDelete "alice" "b1") w0) !! "b1" =
    Some (row "b1" "bob" false 13) ∧
  db (after env0 (OpMarkRead "bob" "b1") w0) !! "b1" =
    Some (row "b1" "bob" true 13).
Proof.
  assert (Hb : db w0 !! "b1" = Some (row "b1" "bob" false 13))
    by reflexivity.
  split; [exact Hb|].
  pose proof (stored_notification_invariant env0 (OpMarkAll "alice") w0
                "b1" _ Hb) as H1.
  pose proof (stored_notification_invariant env0 (OpDelete "alice" "b1") w0
                "b1" _ Hb) as H2.
  split; [|split].
  - destruct (db (after env0 (OpMarkAll "alice") w0) !! "b1") as [n'|];
      [|discriminate H1].
    destruct H1 as [_ H1]. destruct (decide (n' = row "b1" "bob" false 13))
      as [->|Hne]; [done|].
    destruct (H1 Hne) as [Hu _]. discriminate Hu.
  - destruct (db (after env0 (OpDelete "alice" "b1") w0) !! "b1") as [n'|];
      [|discriminate H2].
    destruct H2 as [_ H2]. destruct (decide (n' = row "b1" "bob" false 13))
      as [->|Hne]; [done|].
    destruct (H2 Hne) as [Hu _]. discriminate Hu.
  - vm_compute. reflexivity.
Defined.

(* ===================================================================== *)
(** * services/delivery: one channel                                      *)
(* ===================================================================== *)

(** Unfolds a delivery function down to the calls it makes. *)
Ltac run_delivery :=
  unfold deliver_channel, deliverInApp, deliverDiscord, axios_post, push,
    try_catch, log, emit, bind, ret, throw;
  cbn [db store_calls http_calls trace].

(** What [createNotification] answers and does to the table depends on the
    store, the table and the call number only. *)
Lemma createNotification_store_only env1 env2 w1 w2
    userId type title message link metadata :
  store_fault env1 = store_fault env2 →
  gen_id env1 = gen_id env2 →
  clock env1 = clock env2 →
  db w1 = db w2 →
  store_calls w1 = store_calls w2 →
  let r1 := createNotification env1 userId type title message link metadata
              w1 in
  let r2 := createNotification env2 userId type title message link metadata
              w2 in
  r1.1 = r2.1 ∧ db r1.2 = db r2.2 ∧ store_calls r1.2 = store_calls r2.2.
Proof.
  intros Hf Hg Hc Hdb Hk. run_store. unfold store_call, new_row.
  rewrite Hf, Hg, Hc, Hdb, Hk.
  destruct (store_fault env2 (store_calls w2)); cbn; [done|].
  destruct (db w2 !! gen_id env2 (store_calls w2)); cbn; done.
Qed.

Lemma createNotification_counters env userId type title message link
    metadata w :
  let r := createNotification env userId type title message link metadata w in
  store_calls r.2 = S (store_calls w) ∧ http_calls r.2 = http_calls w.
Proof.
  run_store. unfold store_call.
  destruct (store_fault env (store_calls w)); cbn; [done|].
  destruct (db w !! gen_id env (store_calls w)); cbn; done.
Qed.

(** The [in_app] channel: the outcome is that of [createNotification]. *)
Lemma deliver_channel_in_app env payload results w :
  let r := createNotification env (p_userId payload) (p_type payload)
             (p_title payload) (p_message payload) (p_link payload)
             (p_metadata payload) w in
  ∃ w',
    deliver_channel env payload results "in_app" w =
      (Ok (results ++
             [match r.1 with
              | Ok _ => delivered "in_app"
              | Throw error => failed "in_app" (error_message error)
              end]), w') ∧
    db w' = db r.2 ∧
    store_calls w' = S (store_calls w) ∧
    http_calls w' = http_calls w.
Proof.
  intros r.
  destruct (createNotification_counters env (p_userId payload)
              (p_type payload) (p_title payload) (p_message payload)
              (p_link payload) (p_metadata payload) w) as [Hs Hh].
  run_delivery. rewrite bool_decide_eq_true_2 by done.
  change (createNotification env _ _ _ _ _ _ w) with r in Hs, Hh |- *.
  clearbody r.
  destruct r as [[n|error] w1]; cbn in *; eexists;
    (split; [reflexivity|]); cbn; done.
Qed.

(** The [discord] channel: a success when no endpoint is configured or the
    request is answered with a 2xx status, a failure that quotes the
    rejection otherwise. *)
Lemma deliver_channel_discord env payload results w :
  ∃ w',
    deliver_channel env payload results "discord" w =
      (Ok (results ++
             [if truthy (discordServiceUrl env) then
                match rejection (discord_request env payload)
                        (http_reply env (http_calls w)) with
                | None => delivered "discord"
                | Some error =>
                    failed "discord"
                      ("Discord delivery failed: " +:+ error_message error)
                end
              else delivered "discord"]), w') ∧
    db w' = db w ∧
    store_calls w' = store_calls w ∧
    http_calls w' =
      (if truthy (discordServiceUrl env) then S (http_calls w)
       else http_calls w).
Proof.
  run_delivery. rewrite bool_decide_eq_false_2 by done.
  rewrite bool_decide_eq_true_2 by done.
  destruct (truthy (discordServiceUrl env)); cbn.
  - destruct (rejection _ _); cbn; eexists; (split; [reflexivity|]); done.
  - eexists; (split; [reflexivity|]); done.
Qed.

(** Any other channel identifier. *)
Lemma deliver_channel_unknown env payload results channel w :
  channel ≠ "in_app" → channel ≠ "discord" →
  ∃ w',
    deliver_channel env payload results channel w =
      (Ok (results ++ [failed channel "Unknown channel"]), w') ∧
    db w' = db w ∧
    store_calls w' = store_calls w ∧
    http_calls w' = http_calls w.
Proof.
  intros H1 H2. run_delivery.
  rewrite !bool_decide_eq_false_2 by done.
  eexists; (split; [reflexivity|]); done.
Qed.

(** Every pass through the loop body pushes exactly one outcome, for the
    channel it was given, and does not throw. *)
Lemma deliver_channel_pushes env payload results channel w :
  ∃ o w',
    deliver_channel env payload results channel w =
      (Ok (results ++ [o]), w') ∧
    deliver_channel env payload [] channel w = (Ok [o], w') ∧
    o_channel o = channel.
Proof.
  run_delivery.
  case_bool_decide as H1; [|case_bool_decide as H2].
  - destruct (createNotification _ _ _ _ _ _ _ w) as [[n|error] w1]; cbn;
      eexists _, _; (split; [reflexivity|]); (split; [reflexivity|]); done.
  - destruct (truthy (discordServiceUrl env)); cbn;
      [destruct (rejection _ _); cbn|];
      eexists _, _; (split; [reflexivity|]); (split; [reflexivity|]); done.
  - eexists _, _; (split; [reflexivity|]); (split; [reflexivity|]); done.
Qed.

(* ===================================================================== *)
(** * services/delivery: the loop                                         *)
(* ===================================================================== *)

Lemma deliver_loop_results env payload channels : ∀ results w,
  ∃ outs w',
    deliver_loop env payload channels results w = (Ok (results ++ outs), w') ∧
    deliver env payload channels w = (Ok outs, w').
Proof.
  unfold deliver.
  induction channels as [|channel rest IH]; intros results w.
  - exists [], w. cbn. unfold ret. by rewrite app_nil_r.
  - destruct (deliver_channel_pushes env payload results channel w)
      as (o & w1 & E & E0 & _).
    cbn. unfold bind. rewrite E, E0.
    destruct (IH (results ++ [o]) w1) as (outs & w' & E1 & E2).
    destruct (IH [o] w1) as (outs' & w'' & E3 & E4).
    rewrite E2 in E4. injection E4 as <- <-.
    exists (o :: outs), w'. rewrite E1, E3.
    by rewrite <- app_assoc.
Qed.

(** One step of [deliver]: the first channel, then the others. *)
Lemma deliver_cons env payload channel rest w :
  ∃ o w1 outs w',
    deliver_channel env payload [] channel w = (Ok [o], w1) ∧
    o_channel o = channel ∧
    deliver env payload rest w1 = (Ok outs, w') ∧
    deliver env payload (channel :: rest) w = (Ok (o :: outs), w').
Proof.
  destruct (deliver_channel_pushes env payload [] channel w)
    as (o & w1 & E & _ & Ho).
  destruct (deliver_loop_results env payload rest [o] w1)
    as (outs & w' & E1 & E2).
  exists o, w1, outs, w'. split; [exact E|]. split; [exact Ho|].
  split; [exact E2|].
  unfold deliver. cbn. unfold bind. rewrite E. exact E1.
Qed.

(** [deliver] returns one outcome per requested channel, in the order of
    the request, and attempts every channel. *)
Lemma deliver_counts env payload channels : ∀ w,
  ∃ results w',
    deliver env payload channels w = (Ok results, w') ∧
    o_channel <$> results = channels ∧
    store_calls w' = (store_calls w + occurrences "in_app" channels)%nat ∧
    http_calls w' =
      (http_calls w +
       if truthy (discordServiceUrl env)
       then occurrences "discord" channels else 0)%nat.
Proof.
  induction channels as [|channel rest IH]; intros w.
  - exists [], w. cbn. split; [done|]. split; [done|].
    split; [lia|]. destruct (truthy _); lia.
  - destruct (deliver_cons env payload channel rest w)
      as (o & w1 & outs & w' & E1 & Ho & E2 & E).
    destruct (IH w1) as (outs' & w'' & E3 & Hch & Hs & Hh).
    rewrite E2 in E3. injection E3 as <- <-.
    exists (o :: outs), w'. split; [exact E|].
    split; [cbn; by rewrite Ho, Hch|].
    unfold occurrences in *. rewrite !filter_cons.
    destruct (decide (channel = "in_app")) as [->|H1].
    { destruct (deliver_channel_in_app env payload [] w)
        as (w2 & E4 & _ & Hs1 & Hh1).
      cbn [app] in E4. rewrite E1 in E4. injection E4 as _ <-.
      rewrite decide_False by done. cbn [length].
      split; [lia|]. destruct (truthy _); lia. }
    destruct (decide (channel = "discord")) as [->|H2].
    { destruct (deliver_channel_discord env payload [] w)
        as (w2 & E4 & _ & Hs1 & Hh1).
      cbn [app] in E4. rewrite E1 in E4. injection E4 as _ <-.
      cbn [length]. split; [lia|]. destruct (truthy _); lia. }
    destruct (deliver_channel_unknown env payload [] channel w H1 H2)
      as (w2 & E4 & _ & Hs1 & Hh1).
    cbn [app] in E4. rewrite E1 in E4. injection E4 as _ <-.
    split; [lia|]. destruct (truthy _); lia.
Qed.

(** The [in_app] outcomes and the table after [deliver] depend on the
    store only: not on the discord configuration, not on what the discord
    service answers. *)
Lemma deliver_in_app_store_only env1 env2 payload channels : ∀ w1 w2,
  store_fault env1 = store_fault env2 →
  gen_id env1 = gen_id env2 →
  clock env1 = clock env2 →
  db w1 = db w2 →
  store_calls w1 = store_calls w2 →
  ∀ outs1 w1' outs2 w2',
    deliver env1 payload channels w1 = (Ok outs1, w1') →
    deliver env2 payload channels w2 = (Ok outs2, w2') →
    on_channel "in_app" outs1 = on_channel "in_app" outs2 ∧
    db w1' = db w2' ∧ store_calls w1' = store_calls w2'.
Proof.
  induction channels as [|channel rest IH];
    intros w1 w2 Hf Hg Hc Hdb Hk outs1 w1' outs2 w2' E1 E2.
  - cbn in E1, E2. unfold ret in *.
    injection E1 as <- <-. injection E2 as <- <-. done.
  - destruct (deliver_cons env1 payload channel rest w1)
      as (o1 & v1 & r1 & v1' & A1 & Ho1 & B1 & C1).
    destruct (deliver_cons env2 payload channel rest w2)
      as (o2 & v2 & r2 & v2' & A2 & Ho2 & B2 & C2).
    rewrite E1 in C1. injection C1 as -> ->.
    rewrite E2 in C2. injection C2 as -> ->.
    unfold on_channel. rewrite !filter_cons, Ho1, Ho2.
    destruct (decide (channel = "in_app")) as [->|H1].
    { destruct (deliver_channel_in_app env1 payload [] w1)
        as (x1 & X1 & Hd1 & Hs1 & _).
      destruct (deliver_channel_in_app env2 payload [] w2)
        as (x2 & X2 & Hd2 & Hs2 & _).
      cbn [app] in X1, X2.
      rewrite A1 in X1. injection X1 as -> <-.
      rewrite A2 in X2. injection X2 as -> <-.
      destruct (createNotification_store_only env1 env2 w1 w2
                  (p_userId payload) (p_type payload) (p_title payload)
                  (p_message payload) (p_link payload) (p_metadata payload)
                  Hf Hg Hc Hdb Hk) as (R1 & R2 & R3).
      cbn zeta in R1, R2, R3.
      destruct (IH v1 v2 Hf Hg Hc) with (outs1 := r1) (w1' := v1')
        (outs2 := r2) (w2' := v2') as (I1 & I2 & I3);
        [congruence|congruence|done|done|].
      fold (on_channel "in_app" r1). fold (on_channel "in_app" r2).
      rewrite R1, I1. done. }
    assert (db v1 = db w1 ∧ store_calls v1 = store_calls w1) as [Hd1 Hs1].
    { destruct (decide (channel = "discord")) as [->|H2].
      - destruct (deliver_channel_discord env1 payload [] w1)
          as (x1 & X1 & ? & ? & _).
        cbn [app] in X1. rewrite A1 in X1. by injection X1 as _ <-.
      - destruct (deliver_channel_unknown env1 payload [] channel w1 H1 H2)
          as (x1 & X1 & ? & ? & _).
        cbn [app] in X1. rewrite A1 in X1. by injection X1 as _ <-. }
    assert (db v2 = db w2 ∧ store_calls v2 = store_calls w2) as [Hd2 Hs2].
    { destruct (decide (channel = "discord")) as [->|H2].
      - destruct (deliver_channel_discord env2 payload [] w2)
          as (x2 & X2 & ? & ? & _).
        cbn [app] in X2. rewrite A2 in X2. by injection X2 as _ <-.
      - destruct (deliver_channel_unknown env2 payload [] channel w2 H1 H2)
          as (x2 & X2 & ? & ? & _).
        cbn [app] in X2. rewrite A2 in X2. by injection X2 as _ <-. }
    destruct (IH v1 v2 Hf Hg Hc) with (outs1 := r1) (w1' := v1')
      (outs2 := r2) (w2' := v2') as (I1 & I2 & I3);
      [congruence|congruence|done|done|].
    done.
Qed.

(** The [discord] outcomes depend on the discord configuration and service
    only: not on the store. *)
Lemma deliver_discord_service_only env1 env2 payload channels : ∀ w1 w2,
  discordServiceUrl env1 = discordServiceUrl env2 →
  http_reply env1 = http_reply env2 →
  http_calls w1 = http_calls w2 →
  ∀ outs1 w1' outs2 w2',
    deliver env1 payload channels w1 = (Ok outs1, w1') →
    deliver env2 payload channels w2 = (Ok outs2, w2') →
    on_channel "discord" outs1 = on_channel "discord" outs2 ∧
    http_calls w1' = http_calls w2'.
Proof.
  induction channels as [|channel rest IH];
    intros w1 w2 Hu Hr Hk outs1 w1' outs2 w2' E1 E2.
  - cbn in E1, E2. unfold ret in *.
    injection E1 as <- <-. injection E2 as <- <-. done.
  - destruct (deliver_cons env1 payload channel rest w1)
      as (o1 & v1 & r1 & v1' & A1 & Ho1 & B1 & C1).
    destruct (deliver_cons env2 payload channel rest w2)
      as (o2 & v2 & r2 & v2' & A2 & Ho2 & B2 & C2).
    rewrite E1 in C1. injection C1 as -> ->.
    rewrite E2 in C2. injection C2 as -> ->.
    unfold on_channel. rewrite !filter_cons, Ho1, Ho2.
    destruct (decide (channel = "discord")) as [->|H2].
    { destruct (deliver_channel_discord env1 payload [] w1)
        as (x1 & X1 & _ & _ & Hh1).
      destruct (deliver_channel_discord env2 payload [] w2)
        as (x2 & X2 & _ & _ & Hh2).
      cbn [app] in X1, X2.
      rewrite A1 in X1. injection X1 as -> <-.
      rewrite A2 in X2. injection X2 as -> <-.
      assert (discord_request env1 payload = discord_request env2 payload)
        as Hreq by (unfold discord_request; by rewrite Hu).
      destruct (IH v1 v2 Hu Hr) with (outs1 := r1) (w1' := v1')
        (outs2 := r2) (w2' := v2') as (I1 & I2); [|done|done|].
      { rewrite Hh1, Hh2, Hu, Hk. done. }
      fold (on_channel "discord" r1). fold (on_channel "discord" r2).
      rewrite Hu, Hr, Hk, Hreq, I1. done. }
    assert (http_calls v1 = http_calls w1) as Hh1.
    { destruct (decide (channel = "in_app")) as [->|H1].
      - destruct (deliver_channel_in_app env1 payload [] w1)
          as (x1 & X1 & _ & _ & ?).
        cbn [app] in X1. rewrite A1 in X1. by injection X1 as _ <-.
      - destruct (deliver_channel_unknown env1 payload [] channel w1 H1 H2)
          as (x1 & X1 & _ & _ & ?).
        cbn [app] in X1. rewrite A1 in X1. by injection X1 as _ <-. }
    assert (http_calls v2 = http_calls w2) as Hh2.
    { destruct (decide (channel = "in_app")) as [->|H1].
      - destruct (deliver_channel_in_app env2 payload [] w2)
          as (x2 & X2 & _ & _ & ?).
        cbn [app] in X2. rewrite A2 in X2. by injection X2 as _ <-.
      - destruct (deliver_channel_unknown env2 payload [] channel w2 H1 H2)
          as (x2 & X2 & _ & _ & ?).
        cbn [app] in X2. rewrite A2 in X2. by injection X2 as _ <-. }
    destruct (IH v1 v2 Hu Hr) with (outs1 := r1) (w1' := v1')
      (outs2 := r2) (w2' := v2') as (I1 & I2); [congruence|done|done|].
    done.
Qed.

(** C1. [deliver] returns exactly one outcome per requested channel, in the
    order of the request; every requested channel is attempted whatever
    happened to the channels before it; and the outcomes of a channel do
    not depend on the other channel failing or not: the [in_app] outcomes
    (and the table) are the same whatever the discord configuration and
    service are, and the [discord] outcomes are the same whatever the store
    does. *)
Theorem deliver_isolates_channels env payload channels w :
  ∃ results w',
    deliver env payload channels w = (Ok results, w') ∧
    o_channel <$> results = channels ∧
    length results = length channels ∧
    store_calls w' = (store_calls w + occurrences "in_app" channels)%nat ∧
    http_calls w' =
      (http_calls w +
       if truthy (discordServiceUrl env)
       then occurrences "discord" channels else 0)%nat ∧
    (∀ url replies, ∃ results2 w2,
        deliver (with_discord env url replies) payload channels w =
          (Ok results2, w2) ∧
        on_channel "in_app" results2 = on_channel "in_app" results ∧
        db w2 = db w') ∧
    (∀ faults ids times, ∃ results2 w2,
        deliver (with_store env faults ids times) payload channels w =
          (Ok results2, w2) ∧
        on_channel "discord" results2 = on_channel "discord" results).
Proof.
  destruct (deliver_counts env payload channels w)
    as (results & w' & E & Hch & Hs & Hh).
  exists results, w'. split; [exact E|]. split; [exact Hch|].
  split; [by rewrite <- Hch, length_fmap|].
  split; [exact Hs|]. split; [exact Hh|]. split.
  - intros url replies.
    destruct (deliver_counts (with_discord env url replies) payload
                channels w) as (results2 & w2 & E2 & _).
    exists results2, w2. split; [exact E2|].
    destruct (deliver_in_app_store_only (with_discord env url replies) env
                payload channels w w) with (outs1 := results2) (w1' := w2)
      (outs2 := results) (w2' := w') as (I1 & I2 & _); done.
  - intros faults ids times.
    destruct (deliver_counts (with_store env faults ids times) payload
                channels w) as (results2 & w2 & E2 & _).
    exists results2, w2. split; [exact E2|].
    destruct (deliver_discord_service_only
                (with_store env faults ids times) env
                payload channels w w) with (outs1 := results2) (w1' := w2)
      (outs2 := results) (w2' := w') as (I1 & _); done.
Qed.

(** The example of the specification: [in_app] and [discord] are requested
    and the discord service cannot be reached. *)
Example deliver_discord_unreachable :
  (deliver env_unreachable payload0 ["in_app"; "discord"] w0).1 =
  Ok [ mkDeliveryOutcome "in_app" true None;
       mkDeliveryOutcome "discord" false
         (Some "Discord delivery failed: connect ECONNREFUSED 10.0.0.7:3005") ].
Proof. vm_compute. reflexivity. Qed.

Example deliver_discord_first :
  (deliver env_unreachable payload0 ["discord"; "nope"; "in_app"] w0).1 =
  Ok [ mkDeliveryOutcome "discord" false
         (Some "Discord delivery failed: connect ECONNREFUSED 10.0.0.7:3005");
       mkDeliveryOutcome "nope" false (Some "Unknown channel");
       mkDeliveryOutcome "in_app" true None ].
Proof. vm_compute. reflexivity. Qed.

(* ===================================================================== *)
(** * services/delivery: failures become outcomes                         *)
(* ===================================================================== *)

(** What [createNotification] throws comes from the store. *)
Lemma createNotification_throws env userId type title message link metadata
    w error :
  (createNotification env userId type title message link metadata w).1 =
    Throw error →
  store_fault env (store_calls w) = Some error ∨
  error = JsError Generic "Unique constraint failed on the fields: (`id`)".
Proof.
  run_store. unfold store_call.
  destruct (store_fault env (store_calls w)) as [t|]; cbn.
  - intros [= ->]. by left.
  - destruct (db w !! gen_id env (store_calls w)); cbn.
    + intros [= <-]. by right.
    + discriminate.
Qed.

Lemma error_message_nonempty env k error :
  store_errors_have_message env →
  store_fault env k = Some error ∨
  error = JsError Generic "Unique constraint failed on the fields: (`id`)" →
  error_message error ≠ "".
Proof.
  intros Hmsg [Hk| ->]; [|done].
  destruct error as [kind text|]; [|done]. cbn. by eapply Hmsg.
Qed.

(** The loop body records the outcome of the channel, and nothing else. *)
Lemma deliver_channel_records env payload results channel w :
  ∃ w',
    deliver_channel env payload results channel w =
      (Ok (results ++ [channel_outcome env payload channel w]), w').
Proof.
  unfold deliver_channel, channel_outcome, strategy, try_catch, bind, ret,
    push, log, emit, delivered, failed.
  case_bool_decide as H1; [|case_bool_decide as H2].
  - destruct (deliverInApp env payload w) as [[[]|error] w1];
      eexists; reflexivity.
  - destruct (deliverDiscord env payload w) as [[[]|error] w1];
      eexists; reflexivity.
  - eexists; reflexivity.
Qed.

(** The errors the two strategies throw. *)
Lemma deliverInApp_throws env payload w error :
  (deliverInApp env payload w).1 = Throw error →
  store_fault env (store_calls w) = Some error ∨
  error = JsError Generic "Unique constraint failed on the fields: (`id`)".
Proof.
  unfold deliverInApp, bind.
  destruct (createNotification _ _ _ _ _ _ _ w) as [[n|e] w1] eqn:E;
    cbn; [discriminate|].
  intros [= ->]. eapply createNotification_throws. by rewrite E.
Qed.

Lemma deliverDiscord_throws env payload w error :
  (deliverDiscord env payload w).1 = Throw error →
  ∃ cause, error =
    JsError Generic ("Discord delivery failed: " +:+ error_message cause).
Proof.
  run_delivery. destruct (negb _); cbn; [discriminate|].
  destruct (rejection _ _) as [cause|]; cbn; [|discriminate].
  intros [= <-]. by exists cause.
Qed.

(** C2, as the code has it.  [deliver] never throws: it returns a list of
    outcomes, one per channel, even when every channel failed.  Each
    outcome is the one of its channel: a success when the strategy of the
    channel returned, [success = false] with the message of the caught
    error as [error] when it threw (["Unknown error"] when the thrown
    value is not an [Error]), and [{channel, success: false, error:
    "Unknown channel"}] for an unrecognised channel identifier.  The
    description of a failure is non-empty provided the errors of the store
    carry a message: the discord channel always prefixes its own text. *)
Theorem deliver_never_throws env payload channels w :
  ∃ results w',
    deliver env payload channels w = (Ok results, w') ∧
    length results = length channels ∧
    results = recorded env payload channels w ∧
    Forall (λ o, o_channel o ≠ "in_app" → o_channel o ≠ "discord" →
                 o = failed (o_channel o) "Unknown channel") results ∧
    (store_errors_have_message env → Forall described results).
Proof.
  revert w. induction channels as [|channel rest IH]; intros w.
  - exists [], w. done.
  - destruct (deliver_cons env payload channel rest w)
      as (o & w1 & outs & w' & E1 & Ho & E2 & E).
    destruct (deliver_channel_records env payload [] channel w) as (w2 & E3).
    cbn [app] in E3. rewrite E1 in E3. injection E3 as -> <-.
    destruct (IH w1) as (outs' & w'' & E4 & Hlen & Hrec & Hunk & Hdesc).
    rewrite E2 in E4. injection E4 as <- <-.
    exists (channel_outcome env payload channel w :: outs), w'.
    split; [exact E|]. split; [cbn; by rewrite Hlen|].
    split; [cbn [recorded]; rewrite E1; cbn [snd]; by rewrite <- Hrec|].
    split.
    + constructor; [|exact Hunk]. rewrite Ho. intros H1 H2.
      unfold channel_outcome, strategy.
      by rewrite !bool_decide_eq_false_2.
    + intros Hmsg. constructor; [|by apply Hdesc].
      unfold channel_outcome, strategy.
      case_bool_decide as H1; [|case_bool_decide as H2].
      * destruct (deliverInApp env payload w).1 as [[]|error] eqn:Hr; [done|].
        cbn. eexists. split; [done|].
        eapply error_message_nonempty; [done|].
        by eapply deliverInApp_throws.
      * destruct (deliverDiscord env payload w).1 as [[]|error] eqn:Hr;
          [done|].
        apply deliverDiscord_throws in Hr as [cause ->].
        cbn. eexists. split; done.
      * cbn. eexists. split; done.
Qed.

Lemma deliver_never_throws_witness :
  store_errors_have_message env_store_down ∧
  ∃ results w',
    deliver env_store_down payload0 ["in_app"; "sms"] w0 = (Ok results, w') ∧
    Forall described results ∧
    results = [ failed "in_app" "Can't reach database server";
                failed "sms" "Unknown channel" ].
Proof.
  assert (Hmsg : store_errors_have_message env_store_down).
  { intros k kind text [= _ <-]. done. }
  split; [exact Hmsg|].
  destruct (deliver_never_throws env_store_down payload0 ["in_app"; "sms"]
              w0) as (results & w' & E & _ & Hrec & _ & Hdesc).
  exists results, w'. split; [exact E|]. split; [by apply Hdesc|].
  rewrite Hrec. vm_compute. reflexivity.
Defined.

(** The claim as stated fails for the [in_app] channel when the store
    throws an error whose message is empty: the outcome then carries the
    empty string. *)
Lemma deliver_empty_description :
  (deliver env_store_silent payload0 ["in_app"] w0).1 =
    Ok [ mkDeliveryOutcome "in_app" false (Some "") ] ∧
  ¬ ∃ results w',
      deliver env_store_silent payload0 ["in_app"] w0 = (Ok results, w') ∧
      Forall described results.
Proof.
  split; [vm_compute; reflexivity|].
  intros (results & w' & E & Hdesc).
  vm_compute in E. injection E as <- _.
  apply Forall_cons_1 in Hdesc as [(text & [= <-] & Hne) _]. done.
Qed.

(* ===================================================================== *)
(** * services/delivery: the discord channel                              *)
(* ===================================================================== *)




(* ===================================================================== *)
(** * events/handlers: campaign status changed                            *)
(* ===================================================================== *)

Lemma truthy_present s : truthy s = true ↔ present s.
Proof.
  unfold truthy, present. destruct s as [user|].
  - rewrite bool_decide_eq_true. split.
    + intros Hne. by exists user.
    + intros (u & [= <-] & Hne). done.
  - split; [done|]. intros (u & Hu & _). done.
Qed.

(** C4. With the store available, the handler of a "campaign status
    changed" event creates a notification if and only if [newStatus] is
    ['PAUSED'] and [changedBy] is present; it then creates exactly one, of
    type CAMPAIGN_ENDING and titled "Campaign Paused", for the user
    [changedBy]; for every other event it creates none. *)
Theorem campaign_status_changed_notifies env payload w :
  store_fault env (store_calls w) = None →
  db w !! gen_id env (store_calls w) = None →
  ∃ w',
    on_CAMPAIGN_STATUS_CHANGED env payload w = (Ok tt, w') ∧
    (db w' ≠ db w ↔
     cs_newStatus payload = "PAUSED" ∧ present (cs_changedBy payload)) ∧
    (∀ user,
       cs_newStatus payload = "PAUSED" →
       cs_changedBy payload = Some user → user ≠ "" →
       ∃ created,
         db w' = <[n_id created := created]> (db w) ∧
         db w !! n_id created = None ∧
         size (db w') = S (size (db w)) ∧
         n_userId created = user ∧
         n_type created = CAMPAIGN_ENDING ∧
         n_title created = "Campaign Paused" ∧
         n_isRead created = false) ∧
    (¬ (cs_newStatus payload = "PAUSED" ∧ present (cs_changedBy payload)) →
     db w' = db w ∧ store_calls w' = store_calls w).
Proof.
  intros Hok Hfresh.
  unfold on_CAMPAIGN_STATUS_CHANGED, ack. run_store.
  case_bool_decide as Hst.
  - destruct (truthy (cs_changedBy payload)) eqn:Hby.
    + rewrite store_call_ok by done.
      cbn [db store_calls http_calls trace]. rewrite Hfresh.
      eexists. split; [reflexivity|].
      cbn [db store_calls http_calls trace].
      set (created := new_row _ _ _ _ _ _ _ _).
      assert (Hins : <[gen_id env (store_calls w) := created]> (db w) ≠ db w).
      { intros Heq.
        assert (<[gen_id env (store_calls w) := created]> (db w)
                  !! gen_id env (store_calls w) = Some created) as Hl
          by apply lookup_insert_eq.
        rewrite Heq, Hfresh in Hl. done. }
      split; [|split].
      * split; [|done].
        intros _. split; [done|]. by apply truthy_present.
      * intros user _ Hu Hne. exists created.
        split; [reflexivity|]. split; [done|].
        split; [by apply map_size_insert_None|].
        unfold created. cbn. rewrite Hu. done.
      * intros Hn. exfalso. apply Hn. split; [done|].
        by apply truthy_present.
    + eexists. split; [reflexivity|].
      cbn [db store_calls http_calls trace].
      assert (¬ present (cs_changedBy payload)) as Hnp.
      { intros Hp%truthy_present. congruence. }
      split; [|split].
      * split; [done|]. intros [_ Hp]. done.
      * intros user _ Hu Hne. exfalso. apply Hnp. by exists user.
      * done.
  - eexists. split; [reflexivity|].
    cbn [db store_calls http_calls trace].
    split; [|split].
    + split; [done|]. intros [Hp _]. done.
    + intros user Hp. done.
    + done.
Qed.

Lemma campaign_status_changed_notifies_witness :
  store_fault env0 (store_calls w0) = None ∧
  db w0 !! gen_id env0 (store_calls w0) = None ∧
  (∃ w', on_CAMPAIGN_STATUS_CHANGED env0 paused0 w0 = (Ok tt, w') ∧
         size (db w') = S (size (db w0))) ∧
  (∃ w', on_CAMPAIGN_STATUS_CHANGED env0 activated0 w0 = (Ok tt, w') ∧
         db w' = db w0).
Proof.
  assert (H1 : store_fault env0 (store_calls w0) = None) by reflexivity.
  assert (H2 : db w0 !! gen_id env0 (store_calls w0) = None) by reflexivity.
  split; [exact H1|]. split; [exact H2|]. split.
  - destruct (campaign_status_changed_notifies env0 paused0 w0 H1 H2)
      as (w' & E & _ & Hcreate & _).
    exists w'. split; [exact E|].
    destruct (Hcreate "bob") as (created & _ & _ & Hsize & _); done.
  - destruct (campaign_status_changed_notifies env0 activated0 w0 H1 H2)
      as (w' & E & _ & _ & Hnone).
    exists w'. split; [exact E|].
    apply Hnone. intros [Hp _]. discriminate Hp.
Defined.

(* ===================================================================== *)
(** * events/handlers: acknowledgement                                    *)
(* ===================================================================== *)

(** The effects of [createNotification]: one call to the store, and the
    log line when the row was created. *)
Lemma createNotification_trace env userId type title message link metadata
    w :
  let r := createNotification env userId type title message link metadata w in
  match r.1 with
  | Ok n =>
      trace r.2 =
        Log LInfo "Notification created" :: StoreCall "create" true :: trace w
  | Throw error =>
      (∃ ok, trace r.2 = StoreCall "create" ok :: trace w) ∧
      (store_fault env (store_calls w) = Some error ∨
       error = unique_violation)
  end.
Proof.
  run_store. unfold store_call.
  destruct (store_fault env (store_calls w)) as [t|]; cbn.
  - split; [by eexists|by left].
  - destruct (db w !! gen_id env (store_calls w)); cbn; [|done].
    split; [by eexists|by right].
Qed.

(** A handler that creates a notification and then acknowledges. *)
Lemma create_then_ack env userId type title message link metadata w :
  let r := (createNotification env userId type title message link metadata >>
            ack) w in
  ∃ effects,
    trace r.2 = effects ++ trace w ∧
    match r.1 with
    | Ok _ =>
        effects =
          [Ack; Log LInfo "Notification created"; StoreCall "create" true]
    | Throw error =>
        (Ack ∉ effects) ∧
        (store_fault env (store_calls w) = Some error ∨
         error = unique_violation)
    end.
Proof.
  pose proof (createNotification_trace env userId type title message link
                metadata w) as Ht.
  cbn zeta in Ht |- *. unfold bind, ack, emit.
  destruct (createNotification _ _ _ _ _ _ _ w) as [[n|error] w1];
    cbn in Ht |- *.
  - eexists. split; [|reflexivity]. by rewrite Ht.
  - destruct Ht as [[ok Ht] Herr].
    exists [StoreCall "create" ok]. split; [by rewrite Ht|].
    split; [|done]. intros Hin%list_elem_of_singleton. discriminate.
Qed.

(** C6, as the code has it.  The body of every handler acknowledges the
    event only after its notification-creation attempt has completed, as
    its last effect; and it acknowledges only when that attempt did not
    throw.  When the creation throws, the body does not acknowledge: the
    error of the store propagates to the wrappers of the Consumer
    Runtime. *)
Theorem handler_acknowledges_after_creation env event w :
  ∃ effects,
    trace (handle env event w).2 = effects ++ trace w ∧
    match (handle env event w).1 with
    | Ok _ =>
        ∃ before, effects = Ack :: before ∧ (Ack ∉ before) ∧
                  (∀ op ok, StoreCall op ok ∈ before → ok = true)
    | Throw error =>
        (Ack ∉ effects) ∧
        (store_fault env (store_calls w) = Some error ∨
         error = unique_violation)
    end.
Proof.
  assert (Hgen : ∀ userId type title message link metadata,
    let r := (createNotification env userId type title message link
                metadata >> ack) w in
    ∃ effects,
      trace r.2 = effects ++ trace w ∧
      match r.1 with
      | Ok _ =>
          ∃ before, effects = Ack :: before ∧ (Ack ∉ before) ∧
                    (∀ op ok, StoreCall op ok ∈ before → ok = true)
      | Throw error =>
          (Ack ∉ effects) ∧
          (store_fault env (store_calls w) = Some error ∨
           error = unique_violation)
      end).
  { intros userId type title message link metadata.
    destruct (create_then_ack env userId type title message link metadata w)
      as (effects & Ht & Hr).
    cbn zeta. exists effects. split; [exact Ht|].
    destruct (_ w).1 as [[]|error]; [|exact Hr].
    eexists. split; [exact Hr|]. split.
    - intros Hin. apply elem_of_cons in Hin as [?|Hin]; [done|].
      apply list_elem_of_singleton in Hin. discriminate.
    - intros op ok Hin. apply elem_of_cons in Hin as [?|Hin]; [done|].
      apply list_elem_of_singleton in Hin. by injection Hin as _ <-. }
  assert (Hnone : ∃ effects,
    trace (ack w).2 = effects ++ trace w ∧
    ∃ before, effects = Ack :: before ∧ (Ack ∉ before) ∧
              (∀ op ok, StoreCall op ok ∈ before → ok = true)).
  { exists [Ack]. split; [done|].
    exists []. split; [done|]. split; [apply not_elem_of_nil|].
    intros op ok Hin. by apply not_elem_of_nil in Hin. }
  destruct event as [p|p|p|p|p|p|p]; cbn [handle];
    try (unfold on_CLIP_APPROVED, on_CLIP_REJECTED, on_CAMPAIGN_ENDED,
           on_PAYOUT_COMPLETED, on_DISPUTE_CREATED, on_DISPUTE_RESOLVED,
           createSystemNotification; apply Hgen).
  unfold on_CAMPAIGN_STATUS_CHANGED.
  case_bool_decide as Hst; [destruct (truthy (cs_changedBy p))|].
  - specialize (Hgen (default "" (cs_changedBy p)) CAMPAIGN_ENDING
                  "Campaign Paused" (Some "Campaign has been paused.") None
                  (Some [("campaignId", MStr (cs_campaignId p));
                         ("oldStatus", MStr (cs_oldStatus p));
                         ("newStatus", MStr (cs_newStatus p))])).
    cbn zeta in Hgen. revert Hgen. unfold bind, ret.
    destruct (createNotification _ _ _ _ _ _ _ w) as [[n|error] w1]; done.
  - exact Hnone.
  - exact Hnone.
Qed.

(** The claim as stated fails when the creation fails: with the store
    down, the body of the "clip approved" handler throws the error of the
    store and never acknowledges. *)
Lemma handler_skips_ack_on_failure :
  (handle env_store_down (ClipApproved clip0) w0).1 =
    Throw (JsError Generic "Can't reach database server") ∧
  (Ack ∉ trace (handle env_store_down (ClipApproved clip0) w0).2) ∧
  trace (handle env_store_down (ClipApproved clip0) w0).2 =
    [StoreCall "create" false].
Proof.
  split; [vm_compute; reflexivity|].
  assert (Ht : trace (handle env_store_down (ClipApproved clip0) w0).2 =
               [StoreCall "create" false]) by (vm_compute; reflexivity).
  split; [|exact Ht]. rewrite Ht.
  intros Hin%list_elem_of_singleton. discriminate.
Qed.

(* ===================================================================== *)
(** * Numbers: division by 100 and toFixed(2)                             *)
(* ===================================================================== *)

Lemma round_half_even_near a b :
  0 ≤ a → 0 < b → 2 * Z.abs (b * round_half_even a b - a) ≤ b.
Proof.
  intros Ha Hb. unfold round_half_even.
  pose proof (Z.div_mod a b ltac:(lia)) as Hdm.
  pose proof (Z.mod_pos_bound a b Hb) as Hr.
  destruct (2 * (a mod b) <? b) eqn:H1; [apply Z.ltb_lt in H1; lia|].
  apply Z.ltb_ge in H1.
  destruct (b <? 2 * (a mod b)) eqn:H2; [apply Z.ltb_lt in H2; lia|].
  apply Z.ltb_ge in H2.
  destruct (Z.even (a / b)); lia.
Qed.

Lemma round_ratio_cents neg a :
  0 < a < 2 ^ 52 →
  ∃ m k,
    round_ratio neg a 100 = Finite neg m (- k) ∧
    7 ≤ k ∧ 2 * Z.abs (100 * m - a * 2 ^ k) ≤ 100.
Proof.
  intros [Ha1 Ha2]. unfold round_ratio.
  rewrite (proj2 (Z.eqb_neq a 0)) by lia.
  assert (0 ≤ Z.log2 a < 52) as Hlog.
  { split; [apply Z.log2_nonneg|]. by apply Z.log2_lt_pow2. }
  change (Z.log2 100) with 6.
  set (l := Z.log2 a - 6).
  set (fl := if a * 2 ^ Z.max 0 (- l) <? 100 * 2 ^ Z.max 0 l
             then l - 1 else l).
  assert (-7 ≤ fl ≤ 45) as Hfl by (unfold fl, l; destruct (_ <? _); lia).
  rewrite (Z.max_l (fl - 52) (-1074)) by lia.
  rewrite (Z.max_r 0 (- (fl - 52))) by lia.
  rewrite (Z.max_l 0 (fl - 52)) by lia.
  rewrite Z.pow_0_r, Z.mul_1_r.
  rewrite (proj2 (Z.ltb_ge 971 (fl - 52))) by lia.
  rewrite (proj2 (Z.eqb_neq (fl - 52) 971)) by lia.
  cbn [orb andb].
  exists (round_half_even (a * 2 ^ (- (fl - 52))) 100), (- (fl - 52)).
  split; [by rewrite Z.opp_involutive|]. split; [lia|].
  apply round_half_even_near; [|lia].
  apply Z.mul_nonneg_nonneg; [lia|]. apply Z.pow_nonneg. lia.
Qed.

Lemma toFixed_cents big neg m k a :
  0 < a < 2 ^ 52 → 7 ≤ k → 2 * Z.abs (100 * m - a * 2 ^ k) ≤ 100 →
  toFixed big (Finite neg m (- k)) 2 =
  (if neg then "-" else "") +:+ pretty (a / 100) +:+ "." +:+
  pad_zeros 2 (pretty (a mod 100)).
Proof.
  intros Ha Hk Hm. unfold toFixed.
  rewrite Z.opp_involutive.
  rewrite (Z.max_r 0 k) by lia. rewrite (Z.max_l 0 (- k)) by lia.
  rewrite Z.pow_0_r, Z.mul_1_r.
  assert (128 ≤ 2 ^ k) as HK.
  { change 128 with (2 ^ 7). apply Z.pow_le_mono_r; lia. }
  set (K := 2 ^ k) in *.
  change (2 ^ 52) with 4503599627370496 in Ha.
  change (10 ^ 21) with 1000000000000000000000.
  change (10 ^ Z.of_nat 2) with 100.
  assert (0 < m) as Hpos by nia.
  rewrite (proj2 (Z.leb_gt _ m)) by nia.
  rewrite (proj2 (Z.ltb_lt 0 m)) by lia. rewrite andb_true_r.
  assert ((2 * m * 1 * 100 + K) / (2 * K) = a) as ->; [|done].
  symmetry. apply Z.div_unique with (r := 2 * m * 100 + K - 2 * K * a); nia.
Qed.

(** The two digits of a number below 100. *)
Lemma pad_two_digits m :
  0 ≤ m < 100 →
  pad_zeros 2 (pretty m) = pretty (m / 10) +:+ pretty (m mod 10).
Proof.
  intros Hm.
  assert (∀ k : nat, (k < 100)%nat →
            pad_zeros 2 (pretty (Z.of_nat k)) =
            pretty (Z.of_nat k / 10) +:+ pretty (Z.of_nat k mod 10)) as H.
  { intros k Hk.
    do 100 (destruct k as [|k]; [vm_compute; reflexivity|]). lia. }
  rewrite <- (Z2Nat.id m) by lia. apply H. lia.
Qed.

Lemma two_digits_length m :
  0 ≤ m < 100 →
  String.length (pretty (m / 10) +:+ pretty (m mod 10)) = 2%nat.
Proof.
  intros Hm.
  assert (∀ k : nat, (k < 100)%nat →
            String.length (pretty (Z.of_nat k / 10) +:+
                           pretty (Z.of_nat k mod 10)) = 2%nat) as H.
  { intros k Hk.
    do 100 (destruct k as [|k]; [vm_compute; reflexivity|]). lia. }
  rewrite <- (Z2Nat.id m) by lia. apply H. lia.
Qed.

(** [(n / 100).toFixed(2)] for integer minor units [n]: the rounding of
    the division does not reach the second decimal. *)
Lemma toFixed_minor_units big n :
  Z.abs n < 2 ^ 52 →
  toFixed big (number_div (of_int n) (of_int 100)) 2 = major_units n.
Proof.
  intros Hn. unfold major_units, cents.
  rewrite <- pad_two_digits by (apply Z.mod_pos_bound; lia).
  unfold of_int, number_div.
  change (Z.abs 100) with 100. change (100 <? 0) with false.
  change (100 =? 0) with false. cbn iota.
  rewrite xorb_false_r. change (Z.max 0 (0 - 0)) with 0.
  rewrite Z.pow_0_r, !Z.mul_1_r.
  destruct (decide (n = 0)) as [->|Hne]; [vm_compute; reflexivity|].
  destruct (round_ratio_cents (n <? 0) (Z.abs n)) as (m & k & -> & Hk & Hm);
    [lia|].
  apply toFixed_cents; [lia|done|done].
Qed.

(** Known values of the built-ins. *)
Example number_div_tenth :
  number_div (of_int 1) (of_int 10) = Finite false 7205759403792794 (-56).
Proof. vm_compute. reflexivity. Qed.

Example toFixed_1_005 :
  toFixed (λ _, "") (number_div (of_int 1005) (of_int 1000)) 2 = "1.00".
Proof. vm_compute. reflexivity. Qed.

Example toFixed_8_345 :
  toFixed (λ _, "") (number_div (of_int 8345) (of_int 1000)) 2 = "8.35".
Proof. vm_compute. reflexivity. Qed.

(* ===================================================================== *)
(** * events/handlers: clip approved                                      *)
(* ===================================================================== *)

(** C5. The notification created for a "clip approved" event has a message
    that contains the payout: a ['$'], the integer minor units divided by
    100, and exactly two decimal digits.  For [paymentAmount = 2550] this
    is ["$25.50"].  The amount is an integer of magnitude below [2^52]. *)
Theorem clip_approved_amount env payload n w :
  ca_paymentAmount payload = of_int n →
  Z.abs n < 2 ^ 52 →
  store_fault env (store_calls w) = None →
  db w !! gen_id env (store_calls w) = None →
  ∃ created w',
    on_CLIP_APPROVED env payload w = (Ok tt, w') ∧
    db w !! n_id created = None ∧
    db w' !! n_id created = Some created ∧
    n_userId created = ca_userId payload ∧
    n_type created = CLIP_APPROVED ∧
    n_message created =
      Some ("Your clip has been approved! You earned $" +:+ major_units n +:+
            ".") ∧
    (∀ text, n_message created = Some text →
             contains ("$" +:+ major_units n) text) ∧
    String.length (cents n) = 2%nat.
Proof.
  intros Hamount Hn Hok Hfresh.
  unfold on_CLIP_APPROVED, ack. run_store.
  rewrite store_call_ok by done.
  cbn [db store_calls http_calls trace]. rewrite Hfresh.
  set (created := new_row _ _ _ _ _ _ _ _).
  exists created. eexists. split; [reflexivity|].
  cbn [db store_calls http_calls trace].
  assert (Hmsg : n_message created =
            Some ("Your clip has been approved! You earned $" +:+
                  major_units n +:+ ".")).
  { unfold created, new_row, clip_approved_message. cbn [n_message].
    by rewrite Hamount, toFixed_minor_units. }
  split; [done|]. split; [apply lookup_insert_eq|].
  split; [done|]. split; [done|]. split; [exact Hmsg|]. split.
  - intros text Htext. rewrite Hmsg in Htext. injection Htext as <-.
    exists "Your clip has been approved! You earned ", ".". done.
  - apply two_digits_length. apply Z.mod_pos_bound. lia.
Qed.

Lemma clip_approved_amount_witness :
  ca_paymentAmount clip0 = of_int 2550 ∧
  Z.abs 2550 < 2 ^ 52 ∧
  store_fault env0 (store_calls w0) = None ∧
  db w0 !! gen_id env0 (store_calls w0) = None ∧
  ∃ created w',
    on_CLIP_APPROVED env0 clip0 w0 = (Ok tt, w') ∧
    db w' !! n_id created = Some created ∧
    n_message created =
      Some "Your clip has been approved! You earned $25.50." ∧
    contains "$25.50" "Your clip has been approved! You earned $25.50.".
Proof.
  assert (H1 : ca_paymentAmount clip0 = of_int 2550) by reflexivity.
  assert (H2 : Z.abs 2550 < 2 ^ 52) by (vm_compute; reflexivity).
  assert (H3 : store_fault env0 (store_calls w0) = None) by reflexivity.
  assert (H4 : db w0 !! gen_id env0 (store_calls w0) = None) by reflexivity.
  split; [exact H1|]. split; [exact H2|]. split; [exact H3|].
  split; [exact H4|].
  destruct (clip_approved_amount env0 clip0 2550 w0 H1 H2 H3 H4)
    as (created & w' & E & _ & Hdb & _ & _ & Hmsg & Hcontains & _).
  exists created, w'. split; [exact E|]. split; [exact Hdb|].
  split; [exact Hmsg|]. by apply Hcontains.
Defined.

(* ===================================================================== *)
(** * services/notificationService: what a call returns and leaves behind *)
(* ===================================================================== *)

Lemma createNotification_run env userId type title message link metadata w :
  store_fault env (store_calls w) = None →
  db w !! gen_id env (store_calls w) = None →
  let created := new_row env (store_calls w) userId type title message link
                   metadata in
  createNotification env userId type title message link metadata w =
    (Ok created,
     advance w (<[gen_id env (store_calls w) := created]> (db w)) 1
       [Log LInfo "Notification created"; StoreCall "create" true]).
Proof.
  intros Hok Hfresh. run_store. rewrite store_call_ok by done.
  cbn [db store_calls http_calls trace]. rewrite Hfresh. reflexivity.
Qed.

Lemma getUnreadCount_run env user w :
  store_fault env (store_calls w) = None →
  getUnreadCount env user w =
    (Ok (size (unread_of user (db w))),
     advance w (db w) 1 [StoreCall "count" true]).
Proof.
  intros Hok. run_store. rewrite store_call_ok by done.
  cbn [db store_calls http_calls trace]. by rewrite select_unread.
Qed.

Lemma getNotifications_run env user limit offset w :
  reliable env →
  getNotifications env user limit offset w =
    (Ok {| notifications :=
             take (default 20%nat limit)
               (drop (default 0%nat offset)
                  (merge_sort newer_first
                     ((map_to_list (owned_by user (db w))).*2)));
           total := size (owned_by user (db w));
           limit := default 20%nat limit;
           offset := default 0%nat offset |},
     advance w (db w) 2 [StoreCall "count" true; StoreCall "findMany" true]).
Proof.
  intros Hrel. run_store. rewrite store_call_ok by apply Hrel.
  cbn [db store_calls http_calls trace].
  rewrite store_call_ok by apply Hrel.
  cbn [db store_calls http_calls trace fst snd].
  by rewrite select_owned.
Qed.

Lemma markAsRead_run env user id w n :
  reliable env →
  db w !! id = Some n → n_userId n = user →
  markAsRead env user id w =
    (Ok (set_isRead true n),
     advance w (<[id := set_isRead true n]> (db w)) 2
       [StoreCall "update" true; StoreCall "findUnique" true]).
Proof.
  intros Hrel Hn Hu. run_store. rewrite store_call_ok by apply Hrel.
  cbn [db store_calls http_calls trace]. rewrite Hn.
  rewrite bool_decide_eq_false_2 by (intros ?; done).
  rewrite store_call_ok by apply Hrel.
  cbn [db store_calls http_calls trace]. rewrite Hn. reflexivity.
Qed.

Lemma markAllAsRead_run env user w :
  store_fault env (store_calls w) = None →
  markAllAsRead env user w =
    (Ok (size (unread_of user (db w))),
     advance w
       ((λ n, if matches (mkWhere user (Some false)) n
              then set_isRead true n else n) <$> db w) 1
       [Log LInfo "Marked all notifications as read";
        StoreCall "updateMany" true]).
Proof.
  intros Hok. run_store. rewrite store_call_ok by done.
  cbn [db store_calls http_calls trace]. by rewrite select_unread.
Qed.

Lemma deleteNotification_run env user id w n :
  reliable env →
  db w !! id = Some n → n_userId n = user →
  deleteNotification env user id w =
    (Ok tt,
     advance w (delete id (db w)) 2
       [Log LInfo "Notification deleted"; StoreCall "delete" true;
        StoreCall "findUnique" true]).
Proof.
  intros Hrel Hn Hu. run_store. rewrite store_call_ok by apply Hrel.
  cbn [db store_calls http_calls trace]. rewrite Hn.
  rewrite bool_decide_eq_false_2 by (intros ?; done).
  rewrite store_call_ok by apply Hrel.
  cbn [db store_calls http_calls trace]. rewrite Hn. reflexivity.
Qed.

(** A lookup that fails the ownership test: the call stops after
    [findUnique]. *)
Lemma deleteNotification_refused env user id w :
  store_fault env (store_calls w) = None →
  (∀ n, db w !! id = Some n → n_userId n ≠ user) →
  deleteNotification env user id w =
    (Throw (match db w !! id with
            | None => notFound "Notification not found"
            | Some _ => forbidden "Cannot delete another user's notification"
            end),
     advance w (db w) 1 [StoreCall "findUnique" true]).
Proof.
  intros Hok Hn. run_store. rewrite store_call_ok by done.
  cbn [db store_calls http_calls trace].
  destruct (db w !! id) as [n|] eqn:Hid; [|reflexivity].
  rewrite bool_decide_eq_true_2 by by apply Hn. reflexivity.
Qed.

Lemma markAsRead_refused env user id w :
  store_fault env (store_calls w) = None →
  (∀ n, db w !! id = Some n → n_userId n ≠ user) →
  markAsRead env user id w =
    (Throw (match db w !! id with
            | None => notFound "Notification not found"
            | Some _ =>
                forbidden "Cannot mark another user's notification as read"
            end),
     advance w (db w) 1 [StoreCall "findUnique" true]).
Proof.
  intros Hok Hn. run_store. rewrite store_call_ok by done.
  cbn [db store_calls http_calls trace].
  destruct (db w !! id) as [n|] eqn:Hid; [|reflexivity].
  rewrite bool_decide_eq_true_2 by by apply Hn. reflexivity.
Qed.

(** Rows of users in a table that gains, loses or changes one row. *)
Lemma owned_by_insert user id n (rows : gmap string Notification) :
  owned_by user (<[id := n]> rows) =
  if decide (n_userId n = user) then <[id := n]> (owned_by user rows)
  else delete id (owned_by user rows).
Proof.
  unfold owned_by. destruct (decide (n_userId n = user)) as [Hu|Hu].
  - by rewrite map_filter_insert_True.
  - by rewrite map_filter_insert_False, map_filter_delete.
Qed.

Lemma unread_of_insert user id n (rows : gmap string Notification) :
  unread_of user (<[id := n]> rows) =
  if decide (n_userId n = user ∧ n_isRead n = false)
  then <[id := n]> (unread_of user rows)
  else delete id (unread_of user rows).
Proof.
  unfold unread_of.
  destruct (decide (n_userId n = user ∧ n_isRead n = false)) as [Hu|Hu].
  - by rewrite map_filter_insert_True.
  - by rewrite map_filter_insert_False, map_filter_delete.
Qed.

Lemma owned_by_lookup user (rows : gmap string Notification) id n :
  owned_by user rows !! id = Some n ↔ rows !! id = Some n ∧ n_userId n = user.
Proof. unfold owned_by. by rewrite map_lookup_filter_Some. Qed.

Lemma unread_of_lookup user (rows : gmap string Notification) id n :
  unread_of user rows !! id = Some n ↔
  rows !! id = Some n ∧ n_userId n = user ∧ n_isRead n = false.
Proof. unfold unread_of. by rewrite map_lookup_filter_Some. Qed.

(* ===================================================================== *)
(** * services/notificationService: the listing                           *)
(* ===================================================================== *)

#[local] Instance newer_first_transitive : Transitive newer_first.
Proof. unfold newer_first. intros a b c Hab Hbc. lia. Qed.

#[local] Instance newer_first_total : Total newer_first.
Proof. unfold newer_first. intros a b. lia. Qed.

(** The listing of a user before it is cut into pages. *)
Lemma listing_elem_of user (rows : gmap string Notification) n :
  n ∈ merge_sort newer_first ((map_to_list (owned_by user rows)).*2) ↔
  ∃ id, rows !! id = Some n ∧ n_userId n = user.
Proof.
  rewrite merge_sort_Permutation, list_elem_of_fmap. split.
  - intros ([id n'] & -> & Hin). exists id.
    by apply elem_of_map_to_list, owned_by_lookup in Hin.
  - intros (id & Hn & Hu). exists (id, n). split; [done|].
    by apply elem_of_map_to_list, owned_by_lookup.
Qed.

Lemma listing_length user (rows : gmap string Notification) :
  length (merge_sort newer_first ((map_to_list (owned_by user rows)).*2)) =
  size (owned_by user rows).
Proof.
  rewrite (Permutation_length (merge_sort_Permutation _ _)).
  by rewrite length_fmap, length_map_to_list.
Qed.

Lemma elem_of_page {A} (x : A) (limit offset : nat) (l : list A) :
  x ∈ take limit (drop offset l) → x ∈ l.
Proof.
  intros Hin.
  rewrite <- (take_drop offset l). apply elem_of_app. right.
  rewrite <- (take_drop limit (drop offset l)). apply elem_of_app. by left.
Qed.

Lemma StronglySorted_page {A} (R : relation A) (limit offset : nat)
    (l : list A) :
  StronglySorted R l → StronglySorted R (take limit (drop offset l)).
Proof.
  intros Hl. rewrite <- (take_drop offset l) in Hl.
  apply StronglySorted_app_1_r in Hl.
  rewrite <- (take_drop limit (drop offset l)) in Hl.
  by apply StronglySorted_app_1_l in Hl.
Qed.

(** X1. A page of the listing holds notifications of the caller only, all
    of them stored; with offset 0 and a limit that covers the total, it
    holds every notification of the caller. *)
Theorem listing_holds_the_callers_rows env user limit offset w :
  reliable env →
  ∃ page w',
    getNotifications env user limit offset w = (Ok page, w') ∧
    (∀ n, n ∈ notifications page →
          n_userId n = user ∧ ∃ id, db w !! id = Some n) ∧
    (default 0%nat offset = 0%nat →
     (total page ≤ default 20 limit)%nat →
     ∀ id n, db w !! id = Some n → n_userId n = user →
             n ∈ notifications page).
Proof.
  intros Hrel. rewrite getNotifications_run by done.
  eexists _, _. split; [reflexivity|]. cbn [notifications total]. split.
  - intros n Hin%elem_of_page. apply listing_elem_of in Hin as (id & ? & ?).
    eauto.
  - intros -> Hle id n Hn Hu. rewrite drop_0, take_ge.
    + apply listing_elem_of. eauto.
    + by rewrite listing_length.
Qed.

Lemma listing_holds_the_callers_rows_witness :
  reliable env0 ∧
  ∃ page w',
    getNotifications env0 "alice" (Some 5%nat) None w0 = (Ok page, w') ∧
    row "a2" "alice" true 11 ∈ notifications page ∧
    row "b1" "bob" false 13 ∉ notifications page.
Proof.
  assert (Hrel : reliable env0) by (intros k; reflexivity).
  split; [exact Hrel|].
  destruct (listing_holds_the_callers_rows env0 "alice" (Some 5%nat) None w0
              Hrel) as (page & w' & E & Hsound & Hcomplete).
  exists page, w'. split; [exact E|]. split.
  - apply (Hcomplete eq_refl) with (id := "a2"); [|done|done].
    rewrite getNotifications_run in E by done. injection E as <- _.
    vm_compute. lia.
  - intros Hin. apply Hsound in Hin as [Hu _]. discriminate Hu.
Defined.

(** X2. A page is ordered by creation time, newest first: every
    notification of the page is at least as recent as all that follow
    it. *)
Theorem listing_newest_first env user limit offset w :
  reliable env →
  ∃ page w',
    getNotifications env user limit offset w = (Ok page, w') ∧
    StronglySorted (λ a b, n_createdAt b ≤ n_createdAt a)
      (notifications page).
Proof.
  intros Hrel. rewrite getNotifications_run by done.
  eexists _, _. split; [reflexivity|]. cbn [notifications].
  apply (StronglySorted_page newer_first).
  apply StronglySorted_merge_sort; apply _.
Qed.

Lemma listing_newest_first_witness :
  reliable env0 ∧
  (getNotifications env0 "alice" None None w0).1 =
    Ok {| notifications := [ row "a3" "alice" false 12;
                             row "a2" "alice" true 11;
                             row "a1" "alice" false 10 ];
          total := 3; limit := 20; offset := 0 |}.
Proof.
  assert (Hrel : reliable env0) by (intros k; reflexivity).
  split; [exact Hrel|].
  destruct (listing_newest_first env0 "alice" None None w0 Hrel)
    as (page & w' & E & _).
  rewrite E. vm_compute in E. by injection E as <- _.
Defined.

(** Without ties there is one newest-first order. *)
Lemma listing_unique user (rows : gmap string Notification) l1 l2 :
  distinct_times user rows →
  l1 ≡ₚ (map_to_list (owned_by user rows)).*2 →
  l2 ≡ₚ (map_to_list (owned_by user rows)).*2 →
  StronglySorted newer_first l1 → StronglySorted newer_first l2 →
  l1 = l2.
Proof.
  intros Hdist H1 H2 S1 S2.
  apply (StronglySorted_unique_strong newer_first); [|done|done|by rewrite H1].
  intros x1 x2 Hx1 Hx2 R12 R21. unfold newer_first in *.
  rewrite H1 in Hx1. rewrite H2 in Hx2.
  apply list_elem_of_fmap in Hx1 as ([id1 n1] & -> & Hx1).
  apply list_elem_of_fmap in Hx2 as ([id2 n2] & -> & Hx2).
  apply elem_of_map_to_list, owned_by_lookup in Hx1 as [Hn1 Hu1].
  apply elem_of_map_to_list, owned_by_lookup in Hx2 as [Hn2 Hu2].
  cbn in *. assert (id1 = id2) as -> by (eapply Hdist; eauto; lia).
  congruence.
Qed.

(** X3. When no two notifications of the user share a creation time,
    consecutive pages tile the listing: the page of [a] items at offset
    [o] followed by the page of [b] items at offset [o + a] is the page of
    [a + b] items at offset [o]; nothing is repeated and nothing is
    skipped.  This holds of the three calls, and of any three pages the
    store may answer with, whichever way it orders rows of equal creation
    time. *)
Theorem pages_tile env user a b o w :
  reliable env →
  distinct_times user (db w) →
  ∃ p1 w1 p2 w2 p w3,
    getNotifications env user (Some a) (Some o) w = (Ok p1, w1) ∧
    getNotifications env user (Some b) (Some (o + a)%nat) w1 = (Ok p2, w2) ∧
    getNotifications env user (Some (a + b)%nat) (Some o) w2 = (Ok p, w3) ∧
    notifications p = notifications p1 ++ notifications p2 ∧
    total p1 = total p ∧ total p2 = total p ∧
    may_answer user (db w) a o (notifications p1) ∧
    (∀ l1 l2 l,
       may_answer user (db w) a o l1 →
       may_answer user (db w) b (o + a) l2 →
       may_answer user (db w) (a + b) o l →
       l = l1 ++ l2).
Proof.
  intros Hrel Hdist. rewrite !getNotifications_run by done.
  eexists _, _. eexists _, _. eexists _, _.
  split; [reflexivity|].
  rewrite getNotifications_run by done. split; [reflexivity|].
  rewrite getNotifications_run by done. split; [reflexivity|].
  cbn [notifications total default advance db].
  split; [unfold id; by rewrite <- drop_drop, take_take_drop|].
  split; [done|]. split; [done|]. split.
  - exists (merge_sort newer_first
              ((map_to_list (owned_by user (db w))).*2)).
    split; [apply merge_sort_Permutation|].
    split; [apply StronglySorted_merge_sort; apply _|reflexivity].
  - intros l1 l2 l (m1 & P1 & S1 & ->) (m2 & P2 & S2 & ->) (m & P & S & ->).
    rewrite (listing_unique user (db w) m1 m), (listing_unique user (db w) m2 m)
      by done.
    by rewrite <- drop_drop, take_take_drop.
Qed.

Lemma rows0_distinct_times : distinct_times "alice" rows0.
Proof.
  intros id1 id2 n1 n2. unfold rows0.
  rewrite !lookup_insert. rewrite lookup_empty.
  repeat case_decide; subst; try done;
    intros [= <-] [= <-]; try done; cbn; intros; try lia; try done.
Qed.

Lemma pages_tile_witness :
  reliable env0 ∧ distinct_times "alice" (db w0) ∧
  ∃ p1 w1 p2 w2,
    getNotifications env0 "alice" (Some 1%nat) (Some 0%nat) w0 = (Ok p1, w1) ∧
    getNotifications env0 "alice" (Some 2%nat) (Some 1%nat) w1 = (Ok p2, w2) ∧
    notifications p1 ++ notifications p2 =
      [ row "a3" "alice" false 12; row "a2" "alice" true 11;
        row "a1" "alice" false 10 ].
Proof.
  assert (Hrel : reliable env0) by (intros k; reflexivity).
  split; [exact Hrel|]. split; [exact rows0_distinct_times|].
  destruct (pages_tile env0 "alice" 1 2 0 w0 Hrel rows0_distinct_times)
    as (p1 & w1 & p2 & w2 & p & w3 & E1 & E2 & E3 & Htile & _).
  exists p1, w1, p2, w2. split; [exact E1|]. split; [exact E2|].
  rewrite <- Htile. rewrite getNotifications_run in E3 by done.
  injection E3 as <- _.
  rewrite getNotifications_run in E2 by done. injection E2 as _ <-.
  rewrite getNotifications_run in E1 by done. injection E1 as _ <-.
  vm_compute. reflexivity.
Defined.

(* ===================================================================== *)
(** * services/notificationService: deleting                              *)
(* ===================================================================== *)

(** X4. [deleteNotification] fails with NotFound for an unknown
    identifier and with Forbidden for a notification of another user,
    leaving the table as it was; for a notification of the caller it
    removes exactly that row, and no later listing of the caller shows
    it. *)
Theorem deleteNotification_spec env user id w :
  reliable env →
  keyed (db w) →
  ∃ w',
    match db w !! id with
    | None =>
        deleteNotification env user id w =
          (Throw (JsError NotFound "Notification not found"), w') ∧
        db w' = db w
    | Some n =>
        if decide (n_userId n = user) then
          deleteNotification env user id w = (Ok tt, w') ∧
          db w' = delete id (db w) ∧
          (∀ other, other ≠ id → db w' !! other = db w !! other) ∧
          (∀ limit offset page w'',
             getNotifications env user limit offset w' = (Ok page, w'') →
             n ∉ notifications page)
        else
          deleteNotification env user id w =
            (Throw (JsError Forbidden
                      "Cannot delete another user's notification"), w') ∧
          db w' = db w
    end.
Proof.
  intros Hrel Hkey.
  destruct (db w !! id) as [n|] eqn:Hn.
  - destruct (decide (n_userId n = user)) as [Hu|Hu].
    + rewrite (deleteNotification_run env user id w n) by done.
      eexists. split; [reflexivity|]. cbn [advance db].
      split; [done|]. split.
      * intros other Hne. by rewrite lookup_delete_ne.
      * intros limit offset page w''. rewrite getNotifications_run by done.
        intros [= <- _]. cbn [notifications advance db].
        intros Hin%elem_of_page.
        apply listing_elem_of in Hin as (id' & Hid' & _).
        destruct (decide (id' = id)) as [->|Hne].
        -- by rewrite lookup_delete_eq in Hid'.
        -- rewrite lookup_delete_ne in Hid' by done.
           apply Hkey in Hid'. apply Hkey in Hn. congruence.
    + rewrite deleteNotification_refused; [|apply Hrel|].
      * rewrite Hn. eexists. split; [reflexivity|]. done.
      * intros n' Hn'. congruence.
  - rewrite deleteNotification_refused; [|apply Hrel|].
    + rewrite Hn. eexists. split; [reflexivity|]. done.
    + intros n' Hn'. congruence.
Qed.

Lemma rows0_keyed : keyed rows0.
Proof.
  intros id n. unfold rows0.
  rewrite !lookup_insert. repeat case_decide; try (intros [= <-]; by subst).
Qed.

Lemma deleteNotification_spec_witness :
  reliable env0 ∧ keyed (db w0) ∧
  (∃ w', deleteNotification env0 "alice" "a2" w0 = (Ok tt, w') ∧
         db w' = delete "a2" (db w0)) ∧
  (∃ w', deleteNotification env0 "alice" "b1" w0 =
           (Throw (JsError Forbidden
                     "Cannot delete another user's notification"), w') ∧
         db w' = db w0) ∧
  (∃ w', deleteNotification env0 "alice" "zz" w0 =
           (Throw (JsError NotFound "Notification not found"), w') ∧
         db w' = db w0).
Proof.
  assert (Hrel : reliable env0) by (intros k; reflexivity).
  split; [exact Hrel|]. split; [exact rows0_keyed|].
  destruct (deleteNotification_spec env0 "alice" "a2" w0 Hrel rows0_keyed)
    as (w1 & H1).
  destruct (deleteNotification_spec env0 "alice" "b1" w0 Hrel rows0_keyed)
    as (w2 & H2).
  destruct (deleteNotification_spec env0 "alice" "zz" w0 Hrel rows0_keyed)
    as (w3 & H3).
  split; [|split].
  - exists w1. change (db w0 !! "a2") with (Some (row "a2" "alice" true 11))
      in H1.
    destruct H1 as (E & Hdb & _). done.
  - exists w2. exact H2.
  - exists w3. exact H3.
Defined.

(* ===================================================================== *)
(** * services/notificationService: invariants of the table               *)
(* ===================================================================== *)

(** X5. Every operation of the service keeps each notification stored
    under its own identifier, whatever the store does. *)
Theorem service_keeps_rows_keyed env op w :
  keyed (db w) → keyed (db (after env op w)).
Proof.
  intros Hkey.
  destruct op as [u ty ti me li md|u l o|u|u i|u|u i]; unfold after.
  - destruct (createNotification_db env u ty ti me li md w) as [->|[_ ->]];
      [done|].
    intros id n. rewrite lookup_insert. case_decide as Hid.
    + intros [= <-]. done.
    + apply Hkey.
  - by rewrite getNotifications_db.
  - by rewrite getUnreadCount_db.
  - destruct (markAsRead_db env u i w) as [->|(n0 & Hn0 & _ & ->)]; [done|].
    intros id n. rewrite lookup_insert. case_decide as Hid.
    + intros [= <-]. subst. by apply (Hkey _ n0).
    + apply Hkey.
  - destruct (markAllAsRead_db env u w) as [->| ->]; [done|].
    intros id n. rewrite lookup_fmap.
    destruct (db w !! id) as [n0|] eqn:Hn0; [|done]. cbn.
    intros [= <-]. destruct (matches _ n0); by apply (Hkey _ n0).
  - destruct (deleteNotification_db env u i w) as [->|(n0 & _ & _ & ->)];
      [done|].
    intros id n Hn. apply lookup_delete_Some in Hn as [_ Hn]. by apply Hkey.
Qed.

Lemma service_keeps_rows_keyed_witness :
  keyed (db w0) ∧
  keyed (db (after env0 (OpCreate "carol" NEW_CAMPAIGN "New campaign" None
                           None None) w0)).
Proof.
  split; [exact rows0_keyed|].
  apply (service_keeps_rows_keyed env0 _ w0). exact rows0_keyed.
Defined.

Lemma threw_true {A} (r : Outcome A * World) :
  threw r = true → ∃ t, r.1 = Throw t.
Proof. unfold threw. destruct r.1; [done|eauto]. Qed.

(** X6. An operation of the service that throws leaves the table exactly
    as it was: no operation fails half-way through a change. *)
Theorem failed_operation_changes_nothing env op w :
  fails env op w = true → db (after env op w) = db w.
Proof.
  destruct op as [u ty ti me li md|u l o|u|u i|u|u i]; unfold fails, after;
    intros [t Ht]%threw_true.
  - revert Ht. run_store. unfold store_call.
    destruct (store_fault env (store_calls w)); cbn; [done|].
    destruct (db w !! gen_id env (store_calls w)); cbn; done.
  - apply getNotifications_db.
  - apply getUnreadCount_db.
  - destruct (markAsRead env u i w) as [r w'] eqn:E. cbn in Ht. subst r.
    by eapply markAsRead_throw_db.
  - revert Ht. run_store. unfold store_call.
    destruct (store_fault env (store_calls w)); cbn; done.
  - revert Ht. run_store. unfold store_call.
    destruct (store_fault env (store_calls w)); cbn; [done|].
    destruct (db w !! i) as [n|] eqn:Hn; cbn; [|done].
    case_bool_decide; cbn; [done|].
    destruct (store_fault env (S (store_calls w))); cbn; [done|].
    rewrite Hn. cbn. done.
Qed.

Lemma failed_operation_changes_nothing_witness :
  fails env_store_down (OpMarkAll "alice") w0 = true ∧
  db (after env_store_down (OpMarkAll "alice") w0) = db w0 ∧
  fails env0 (OpDelete "alice" "b1") w0 = true ∧
  db (after env0 (OpDelete "alice" "b1") w0) = db w0.
Proof.
  assert (H1 : fails env_store_down (OpMarkAll "alice") w0 = true)
    by reflexivity.
  assert (H2 : fails env0 (OpDelete "alice" "b1") w0 = true)
    by reflexivity.
  split; [exact H1|].
  split; [exact (failed_operation_changes_nothing _ _ _ H1)|].
  split; [exact H2|].
  exact (failed_operation_changes_nothing _ _ _ H2).
Defined.

(* ===================================================================== *)
(** * services/notificationService: reading and counting                  *)
(* ===================================================================== *)

Lemma size_delete_present {A} (m : gmap string A) id x :
  m !! id = Some x → size (delete id m) = (size m - 1)%nat.
Proof. intros Hx. rewrite map_size_delete, Hx. cbn. lia. Qed.

(** X7. Marking one's notification as read lowers one's unread count by
    one when the notification was unread and leaves it as it was when the
    notification was read already; the unread count of every other user
    is unchanged. *)
Theorem markAsRead_unread_count env user id n w :
  reliable env →
  db w !! id = Some n → n_userId n = user →
  ∃ updated w1 count w2,
    markAsRead env user id w = (Ok updated, w1) ∧
    getUnreadCount env user w1 = (Ok count, w2) ∧
    count = (size (unread_of user (db w)) -
             if n_isRead n then 0 else 1)%nat ∧
    (∀ other, other ≠ user →
       size (unread_of other (db w1)) = size (unread_of other (db w))).
Proof.
  intros Hrel Hn Hu.
  rewrite (markAsRead_run env user id w n) by done.
  eexists _, _. rewrite getUnreadCount_run by apply Hrel.
  eexists _, _. split; [reflexivity|]. split; [reflexivity|].
  cbn [advance db]. split.
  - rewrite unread_of_insert. rewrite decide_False by (intros [_ ?]; done).
    destruct (n_isRead n) eqn:Hr.
    + rewrite delete_id; [lia|].
      apply eq_None_not_Some. intros [x Hx].
      apply unread_of_lookup in Hx as (Hx & _ & Hxr). congruence.
    + apply (size_delete_present _ _ n). by apply unread_of_lookup.
  - intros other Hne. rewrite unread_of_insert.
    rewrite decide_False by (intros [? _]; cbn in *; congruence).
    rewrite delete_id; [done|].
    apply eq_None_not_Some. intros [x Hx].
    apply unread_of_lookup in Hx as (Hx & Hxu & _). congruence.
Qed.

Lemma markAsRead_unread_count_witness :
  reliable env0 ∧
  db w0 !! "a1" = Some (row "a1" "alice" false 10) ∧
  ∃ updated w1 count w2,
    markAsRead env0 "alice" "a1" w0 = (Ok updated, w1) ∧
    getUnreadCount env0 "alice" w1 = (Ok count, w2) ∧
    count = 1%nat.
Proof.
  assert (Hrel : reliable env0) by (intros k; reflexivity).
  assert (Hn : db w0 !! "a1" = Some (row "a1" "alice" false 10))
    by reflexivity.
  split; [exact Hrel|]. split; [exact Hn|].
  destruct (markAsRead_unread_count env0 "alice" "a1" _ w0 Hrel Hn eq_refl)
    as (updated & w1 & count & w2 & E1 & E2 & Hc & _).
  exists updated, w1, count, w2. split; [exact E1|]. split; [exact E2|].
  rewrite Hc. vm_compute. reflexivity.
Defined.

(** X8. [markAsRead] is idempotent: marking the same notification again
    returns the same record and leaves the table as the first call left
    it. *)
Theorem markAsRead_idempotent env user id n w :
  reliable env →
  db w !! id = Some n → n_userId n = user →
  ∃ updated w1 w2,
    markAsRead env user id w = (Ok updated, w1) ∧
    markAsRead env user id w1 = (Ok updated, w2) ∧
    db w2 = db w1 ∧
    n_isRead updated = true.
Proof.
  intros Hrel Hn Hu.
  rewrite (markAsRead_run env user id w n) by done.
  eexists _, _, _. split; [reflexivity|].
  rewrite (markAsRead_run env user id _ (set_isRead true n));
    [|done|cbn [advance db]; apply lookup_insert_eq|done].
  split; [reflexivity|]. cbn [advance db].
  by rewrite insert_insert_eq.
Qed.

Lemma markAsRead_idempotent_witness :
  reliable env0 ∧
  db w0 !! "a1" = Some (row "a1" "alice" false 10) ∧
  ∃ updated w1 w2,
    markAsRead env0 "alice" "a1" w0 = (Ok updated, w1) ∧
    markAsRead env0 "alice" "a1" w1 = (Ok updated, w2) ∧
    db w2 = db w1 ∧
    n_isRead updated = true.
Proof.
  assert (Hrel : reliable env0) by (intros k; reflexivity).
  assert (Hn : db w0 !! "a1" = Some (row "a1" "alice" false 10))
    by (vm_compute; reflexivity).
  split; [exact Hrel|]. split; [exact Hn|].
  exact (markAsRead_idempotent env0 "alice" "a1" _ w0 Hrel Hn eq_refl).
Defined.

(** X9. [markAllAsRead] is idempotent: a second call right after the first
    changes nothing and returns the count 0. *)
Theorem markAllAsRead_idempotent env user w :
  reliable env →
  ∃ count w1 w2,
    markAllAsRead env user w = (Ok count, w1) ∧
    markAllAsRead env user w1 = (Ok 0%nat, w2) ∧
    db w2 = db w1.
Proof.
  intros Hrel.
  rewrite markAllAsRead_run by apply Hrel.
  eexists _, _, _. split; [reflexivity|].
  rewrite markAllAsRead_run by apply Hrel. cbn [advance db].
  rewrite unread_of_mark_all, map_size_empty. split; [reflexivity|].
  cbn [db]. rewrite <- map_fmap_compose. apply map_fmap_ext.
  intros i x _. cbn.
  destruct (matches (mkWhere user (Some false)) x) eqn:Hm; [|by rewrite Hm].
  destruct (matches _ (set_isRead true x)) eqn:Hm'; [|done].
  apply matches_unread in Hm' as [_ Hr]. done.
Qed.

Lemma markAllAsRead_idempotent_witness :
  reliable env0 ∧
  ∃ count w1 w2,
    markAllAsRead env0 "alice" w0 = (Ok count, w1) ∧
    markAllAsRead env0 "alice" w1 = (Ok 0%nat, w2) ∧
    db w2 = db w1.
Proof.
  assert (Hrel : reliable env0) by (intros k; reflexivity).
  split; [exact Hrel|].
  exact (markAllAsRead_idempotent env0 "alice" w0 Hrel).
Defined.

(* ===================================================================== *)
(** * services/notificationService: creating                              *)
(* ===================================================================== *)

(** X10. A notification that [createNotification] returns is stored under
    its identifier, unread, with the fields of the call; the user's total
    and unread count grow by one and those of every other user stay as
    they were. *)
Theorem createNotification_counts env userId type title message link
    metadata w :
  store_fault env (store_calls w) = None →
  db w !! gen_id env (store_calls w) = None →
  ∃ created w',
    createNotification env userId type title message link metadata w =
      (Ok created, w') ∧
    db w' !! n_id created = Some created ∧
    n_userId created = userId ∧ n_type created = type ∧
    n_title created = title ∧ n_message created = message ∧
    n_link created = link ∧ n_metadata created = metadata ∧
    n_isRead created = false ∧
    size (owned_by userId (db w')) = S (size (owned_by userId (db w))) ∧
    size (unread_of userId (db w')) = S (size (unread_of userId (db w))) ∧
    (∀ other, other ≠ userId →
       owned_by other (db w') = owned_by other (db w) ∧
       unread_of other (db w') = unread_of other (db w)).
Proof.
  intros Hok Hfresh. rewrite createNotification_run by done.
  eexists _, _. split; [reflexivity|]. cbn [advance db new_row n_id].
  split; [apply lookup_insert_eq|]. do 7 (split; [reflexivity|]).
  set (created := new_row _ _ _ _ _ _ _ _).
  assert (Hnone : ∀ u, owned_by u (db w) !! gen_id env (store_calls w) = None).
  { intros u. apply eq_None_not_Some. intros [x Hx].
    apply owned_by_lookup in Hx as [Hx _]. congruence. }
  assert (Hnone' : ∀ u,
            unread_of u (db w) !! gen_id env (store_calls w) = None).
  { intros u. apply eq_None_not_Some. intros [x Hx].
    apply unread_of_lookup in Hx as [Hx _]. congruence. }
  split; [|split].
  - rewrite owned_by_insert, decide_True by done.
    by apply map_size_insert_None.
  - rewrite unread_of_insert, decide_True by done.
    by apply map_size_insert_None.
  - intros other Hne. split.
    + rewrite owned_by_insert, decide_False by (cbn; congruence).
      by apply delete_id.
    + rewrite unread_of_insert,
        decide_False by (intros [? _]; cbn in *; congruence).
      by apply delete_id.
Qed.

Lemma createNotification_counts_witness :
  store_fault env0 (store_calls w0) = None ∧
  db w0 !! gen_id env0 (store_calls w0) = None ∧
  ∃ created w',
    createNotification env0 "bob" NEW_CAMPAIGN "New campaign" None None None
      w0 = (Ok created, w') ∧
    size (unread_of "bob" (db w')) = 2%nat ∧
    size (unread_of "alice" (db w')) = 2%nat.
Proof.
  assert (H1 : store_fault env0 (store_calls w0) = None) by reflexivity.
  assert (H2 : db w0 !! gen_id env0 (store_calls w0) = None) by reflexivity.
  split; [exact H1|]. split; [exact H2|].
  destruct (createNotification_counts env0 "bob" NEW_CAMPAIGN "New campaign"
              None None None w0 H1 H2)
    as (created & w' & E & _ & _ & _ & _ & _ & _ & _ & _ & _ & Hun & Hoth).
  exists created, w'. split; [exact E|]. split.
  - rewrite Hun. vm_compute. reflexivity.
  - destruct (Hoth "alice") as [_ ->]; [done|]. vm_compute. reflexivity.
Defined.

(** X11. Creating a notification and deleting it again as its owner
    restores the table. *)
Theorem create_then_delete_restores env userId type title message link
    metadata w :
  reliable env →
  db w !! gen_id env (store_calls w) = None →
  ∃ created w1 w2,
    createNotification env userId type title message link metadata w =
      (Ok created, w1) ∧
    deleteNotification env userId (n_id created) w1 = (Ok tt, w2) ∧
    db w2 = db w.
Proof.
  intros Hrel Hfresh. rewrite createNotification_run by (done || apply Hrel).
  eexists _, _, _. split; [reflexivity|]. cbn [new_row n_id].
  erewrite deleteNotification_run;
    [|done|cbn [advance db]; apply lookup_insert_eq|done].
  split; [reflexivity|]. cbn [advance db]. by apply delete_insert_id.
Qed.

Lemma create_then_delete_restores_witness :
  reliable env0 ∧
  db w0 !! gen_id env0 (store_calls w0) = None ∧
  ∃ created w1 w2,
    createNotification env0 "bob" NEW_CAMPAIGN "New campaign" None None None
      w0 = (Ok created, w1) ∧
    deleteNotification env0 "bob" (n_id created) w1 = (Ok tt, w2) ∧
    db w2 = db w0.
Proof.
  assert (Hrel : reliable env0) by (intros k; reflexivity).
  assert (H2 : db w0 !! gen_id env0 (store_calls w0) = None) by reflexivity.
  split; [exact Hrel|]. split; [exact H2|].
  exact (create_then_delete_restores env0 "bob" NEW_CAMPAIGN "New campaign"
           None None None w0 Hrel H2).
Defined.

(* ===================================================================== *)
(** * services/delivery: composition and the table                        *)
(* ===================================================================== *)

(** X12. [deliver] composes: delivering to [xs ++ ys] is delivering to
    [xs] and then to [ys], with the outcomes concatenated; delivering to
    no channel returns the empty list and does nothing. *)
Theorem deliver_app env payload xs ys w :
  deliver env payload [] w = (Ok [], w) ∧
  ∃ r1 w1 r2 w2,
    deliver env payload xs w = (Ok r1, w1) ∧
    deliver env payload ys w1 = (Ok r2, w2) ∧
    deliver env payload (xs ++ ys) w = (Ok (r1 ++ r2), w2).
Proof.
  split; [reflexivity|]. revert w.
  induction xs as [|x xs IH]; intros w.
  - destruct (deliver_counts env payload ys w) as (r2 & w2 & E & _).
    exists [], w, r2, w2. done.
  - destruct (deliver_cons env payload x xs w)
      as (o & v & outs & v' & A & _ & B & C).
    destruct (deliver_cons env payload x (xs ++ ys) w)
      as (o' & u & outs' & u' & A' & _ & B' & C').
    rewrite A in A'. injection A' as <- <-.
    destruct (IH v) as (r1 & w1 & r2 & w2 & E1 & E2 & E3).
    rewrite B in E1. injection E1 as <- <-.
    rewrite E3 in B'. injection B' as <- <-.
    exists (o :: outs), v', r2, w2. done.
Qed.

Lemma store_call_fail_eq env op w error :
  store_fault env (store_calls w) = Some error →
  store_call env op w =
    (Throw error,
     {| db := db w; store_calls := S (store_calls w);
        http_calls := http_calls w;
        trace := StoreCall op false :: trace w |}).
Proof. intros H. unfold store_call. by rewrite H. Qed.

Lemma createNotification_cases env userId type title message link metadata
    w :
  let r := createNotification env userId type title message link metadata w in
  (∃ error, r.1 = Throw error ∧ db r.2 = db w) ∨
  (r.1 = Ok (new_row env (store_calls w) userId type title message link
               metadata) ∧
   store_fault env (store_calls w) = None ∧
   db w !! gen_id env (store_calls w) = None ∧
   db r.2 = <[gen_id env (store_calls w) :=
                new_row env (store_calls w) userId type title message link
                  metadata]> (db w)).
Proof.
  run_store. unfold store_call.
  destruct (store_fault env (store_calls w)); cbn; [left; eauto|].
  destruct (db w !! gen_id env (store_calls w)) eqn:Hid; cbn;
    [left; eauto|right; done].
Qed.

Lemma successes_in_app_failed text :
  successes (on_channel "in_app" [failed "in_app" text]) = [].
Proof. reflexivity. Qed.

Lemma successes_in_app_delivered :
  successes (on_channel "in_app" [delivered "in_app"]) = [delivered "in_app"].
Proof. reflexivity. Qed.

(** What one pass through the loop does to the table. *)
Lemma deliver_channel_table env payload channel w o w1 :
  deliver_channel env payload [] channel w = (Ok [o], w1) →
  (∀ id n, db w !! id = Some n → db w1 !! id = Some n) ∧
  (keyed (db w) → keyed (db w1)) ∧
  size (db w1) =
    (size (db w) + length (successes (on_channel "in_app" [o])))%nat.
Proof.
  intros E.
  destruct (decide (channel = "in_app")) as [->|H1].
  { destruct (deliver_channel_in_app env payload [] w) as (w2 & E2 & Hdb & _).
    cbn [app] in E2. rewrite E in E2. injection E2 as -> <-.
    rewrite Hdb.
    destruct (createNotification_cases env (p_userId payload)
                (p_type payload) (p_title payload) (p_message payload)
                (p_link payload) (p_metadata payload) w)
      as [(error & -> & ->)|(-> & _ & Hfresh & ->)].
    - cbn [fst]. rewrite successes_in_app_failed.
      split; [done|]. split; [done|]. cbn [length]. lia.
    - cbn [fst]. rewrite successes_in_app_delivered.
      split; [|split].
      + intros id n Hn. rewrite lookup_insert_ne by congruence. done.
      + intros Hkey id n. rewrite lookup_insert. case_decide.
        * intros [= <-]. done.
        * apply Hkey.
      + rewrite map_size_insert_None by done. cbn [length]. lia. }
  assert (db w1 = db w ∧ o_channel o ≠ "in_app") as [-> Ho].
  { destruct (decide (channel = "discord")) as [->|H2].
    - destruct (deliver_channel_discord env payload [] w)
        as (w2 & E2 & Hdb & _).
      cbn [app] in E2. rewrite E in E2. injection E2 as -> <-.
      split; [done|]. destruct (truthy _); [destruct (rejection _ _)|];
        done.
    - destruct (deliver_channel_unknown env payload [] channel w H1 H2)
        as (w2 & E2 & Hdb & _).
      cbn [app] in E2. rewrite E in E2. injection E2 as -> <-. done. }
  split; [done|]. split; [done|].
  unfold on_channel. rewrite filter_cons, decide_False by done.
  rewrite filter_nil. unfold successes. rewrite filter_nil.
  cbn [length]. lia.
Qed.

(** X13. [deliver] only adds to the table: every stored notification is
    still stored, unchanged, afterwards; the table grows by exactly one
    row per successful [in_app] outcome; and rows stay stored under their
    own identifiers. *)
Theorem deliver_only_adds env payload channels w :
  ∃ results w',
    deliver env payload channels w = (Ok results, w') ∧
    (∀ id n, db w !! id = Some n → db w' !! id = Some n) ∧
    (keyed (db w) → keyed (db w')) ∧
    size (db w') =
      (size (db w) + length (successes (on_channel "in_app" results)))%nat.
Proof.
  revert w. induction channels as [|channel rest IH]; intros w.
  - exists [], w. split; [done|]. split; [done|]. split; [done|]. cbn. lia.
  - destruct (deliver_cons env payload channel rest w)
      as (o & w1 & outs & w' & A & _ & B & C).
    destruct (IH w1) as (outs' & w'' & B' & Hkeep & Hkey & Hsize).
    rewrite B in B'. injection B' as <- <-.
    destruct (deliver_channel_table env payload channel w o w1 A)
      as (Hkeep1 & Hkey1 & Hsize1).
    exists (o :: outs), w'. split; [exact C|].
    split; [intros id n Hn; by apply Hkeep, Hkeep1|].
    split; [intros Hk; by apply Hkey, Hkey1|].
    rewrite Hsize, Hsize1. unfold successes, on_channel.
    rewrite !filter_cons.
    destruct (decide (o_channel o = "in_app"));
      [rewrite !filter_cons; destruct (decide (o_success o = true))|];
      cbn; lia.
Qed.

(** Requesting [in_app] twice stores the notification twice. *)
Example deliver_in_app_twice :
  ∃ results w',
    deliver env0 payload0 ["in_app"; "in_app"] w0 = (Ok results, w') ∧
    results = [delivered "in_app"; delivered "in_app"] ∧
    size (db w') = (size (db w0) + 2)%nat.
Proof. eexists _, _. split; [vm_compute; reflexivity|]. done. Qed.

(** X14. The [in_app] channel stores the payload: when the store accepts
    the row, the outcome is a success and the table holds a new, unread
    notification with the payload's user, type, title, message, link and
    metadata; when the store fails, the outcome is a failure with the
    message of the store's error and the table is unchanged. *)
Theorem deliver_in_app env payload w :
  db w !! gen_id env (store_calls w) = None →
  ∃ w',
    match store_fault env (store_calls w) with
    | None =>
        deliver env payload ["in_app"] w = (Ok [delivered "in_app"], w') ∧
        ∃ created,
          db w' = <[n_id created := created]> (db w) ∧
          db w !! n_id created = None ∧
          n_userId created = p_userId payload ∧
          n_type created = p_type payload ∧
          n_title created = p_title payload ∧
          n_message created = p_message payload ∧
          n_link created = p_link payload ∧
          n_metadata created = p_metadata payload ∧
          n_isRead created = false
    | Some error =>
        deliver env payload ["in_app"] w =
          (Ok [failed "in_app" (error_message error)], w') ∧
        db w' = db w
    end.
Proof.
  intros Hfresh.
  destruct (deliver_cons env payload "in_app" [] w)
    as (o & w1 & outs & w' & A & _ & B & C).
  cbn in B. unfold ret in B. injection B as <- <-.
  destruct (deliver_channel_in_app env payload [] w) as (w2 & E2 & Hdb & _).
  cbn [app] in E2. rewrite A in E2. injection E2 as -> <-.
  exists w1. rewrite C.
  destruct (store_fault env (store_calls w)) as [error|] eqn:Hf.
  - revert Hdb. run_store. rewrite (store_call_fail_eq env _ w error Hf).
    cbn. done.
  - rewrite createNotification_run in Hdb |- * by done.
    cbn [fst snd advance db] in Hdb |- *. split; [done|].
    eexists. split; [exact Hdb|]. done.
Qed.

Lemma deliver_in_app_witness :
  db w0 !! gen_id env0 (store_calls w0) = None ∧
  (∃ w',
     deliver env0 payload0 ["in_app"] w0 = (Ok [delivered "in_app"], w') ∧
     ∃ created,
       db w' = <[n_id created := created]> (db w0) ∧
       db w0 !! n_id created = None ∧
       n_userId created = p_userId payload0 ∧
       n_type created = p_type payload0 ∧
       n_title created = p_title payload0 ∧
       n_message created = p_message payload0 ∧
       n_link created = p_link payload0 ∧
       n_metadata created = p_metadata payload0 ∧
       n_isRead created = false) ∧
  (∃ w',
     deliver env_store_down payload0 ["in_app"] w0 =
       (Ok [failed "in_app" "Can't reach database server"], w') ∧
     db w' = db w0).
Proof.
  assert (H : db w0 !! gen_id env0 (store_calls w0) = None)
    by (vm_compute; reflexivity).
  split; [exact H|]. split.
  - exact (deliver_in_app env0 payload0 w0 H).
  - exact (deliver_in_app env_store_down payload0 w0 H).
Defined.

(* ===================================================================== *)
(** * services/delivery: a delivered discord message                      *)
(* ===================================================================== *)

(** X15. With an endpoint [url] configured and a 2xx reply,
    [deliverDiscord] sends exactly one request, to [url/messages/dm], with
    a timeout of 5000 ms and a JSON content type, addressed to the
    payload's user and carrying its title, the colour of its type, its
    message (or the empty string) and a "Link" field exactly when the
    payload has a non-empty link; it touches neither the table nor the
    store. *)
Theorem deliverDiscord_sends_one_request env payload url w :
  discordServiceUrl env = Some url → url ≠ "" →
  accepted (http_reply env (http_calls w)) →
  ∃ request,
    deliverDiscord env payload w =
      (Ok tt,
       {| db := db w; store_calls := store_calls w;
          http_calls := S (http_calls w);
          trace := Log LDebug "Discord notification delivered" ::
                   HttpPost request true :: trace w |}) ∧
    r_url request = url +:+ "/messages/dm" ∧
    r_timeout request = 5000 ∧
    r_contentType request = "application/json" ∧
    r_userId request = p_userId payload ∧
    e_title (r_embed request) = p_title payload ∧
    e_color (r_embed request) = getColorForType (p_type payload) ∧
    e_description (r_embed request) =
      match p_message payload with Some text => text | None => "" end ∧
    e_fields (r_embed request) =
      match p_link payload with
      | Some link =>
          if decide (link = "") then None
          else Some [mkEmbedField "Link" link false]
      | None => None
      end.
Proof.
  intros Hurl Hne (status & Hreply & Hstatus).
  exists (discord_request env payload). split.
  - run_delivery. rewrite Hurl. cbn [truthy negb].
    rewrite bool_decide_eq_true_2 by done. cbn [negb].
    rewrite Hreply. cbn [rejection].
    rewrite (proj2 (Z.leb_le 200 status)) by lia.
    rewrite (proj2 (Z.ltb_lt status 300)) by lia. reflexivity.
  - unfold discord_request. rewrite Hurl. cbn.
    do 6 (split; [reflexivity|]). split.
    + unfold or_else, truthy. destruct (p_message payload) as [text|]; [|done].
      case_bool_decide as Ht; [done|]. cbn.
      destruct (decide (text = "")); [done|contradiction].
    + unfold truthy. destruct (p_link payload) as [link|]; [|done].
      case_bool_decide; destruct (decide (link = "")); done.
Qed.

Lemma deliverDiscord_sends_one_request_witness :
  discordServiceUrl env0 = Some "http://discord-service:3005" ∧
  "http://discord-service:3005" ≠ "" ∧
  accepted (http_reply env0 (http_calls w0)) ∧
  ∃ request w',
    deliverDiscord env0 payload0 w0 = (Ok tt, w') ∧
    trace w' = [Log LDebug "Discord notification delivered";
                HttpPost request true] ∧
    r_url request = "http://discord-service:3005/messages/dm" ∧
    e_color (r_embed request) = 0x22c55e ∧
    e_fields (r_embed request) = None.
Proof.
  assert (H1 : discordServiceUrl env0 = Some "http://discord-service:3005")
    by reflexivity.
  assert (H2 : "http://discord-service:3005" ≠ "") by done.
  assert (H3 : accepted (http_reply env0 (http_calls w0))).
  { exists 200. split; [reflexivity|lia]. }
  split; [exact H1|]. split; [exact H2|]. split; [exact H3|].
  destruct (deliverDiscord_sends_one_request env0 payload0 _ w0 H1 H2 H3)
    as (request & E & Hu & _ & _ & _ & _ & Hc & _ & Hf).
  exists request. eexists. split; [exact E|].
  split; [reflexivity|]. split; [exact Hu|]. split; [exact Hc|exact Hf].
Defined.

(** X16. The colour of every notification type is one of the five colours
    of the table, and a 24-bit RGB value. *)
Theorem getColorForType_palette type :
  getColorForType type ∈ palette ∧ 0 ≤ getColorForType type < 2 ^ 24.
Proof.
  split.
  - unfold palette. destruct type; cbn [getColorForType];
      repeat (first [apply list_elem_of_here|apply list_elem_of_further]).
  - destruct type; cbn [getColorForType]; lia.
Qed.

(* ===================================================================== *)
(** * events/handlers: what a handler does                                *)
(* ===================================================================== *)

(** A handler that creates a notification and acknowledges, by the answer
    of the store. *)
Lemma create_ack_run env userId type title message link metadata w :
  (createNotification env userId type title message link metadata >> ack) w =
  match store_fault env (store_calls w) with
  | Some error =>
      (Throw error, advance w (db w) 1 [StoreCall "create" false])
  | None =>
      match db w !! gen_id env (store_calls w) with
      | Some _ =>
          (Throw unique_violation,
           advance w (db w) 1 [StoreCall "create" true])
      | None =>
          (Ok tt,
           advance w
             (<[gen_id env (store_calls w) :=
                  new_row env (store_calls w) userId type title message link
                    metadata]> (db w)) 1
             [Ack; Log LInfo "Notification created";
              StoreCall "create" true])
      end
  end.
Proof.
  unfold ack. run_store. unfold store_call.
  destruct (store_fault env (store_calls w)); [reflexivity|].
  cbn [db store_calls http_calls trace].
  destruct (db w !! gen_id env (store_calls w)); reflexivity.
Qed.

(** Every handler is its addressing, a message and metadata, one creation
    and the acknowledgement. *)
Lemma handle_shape env event :
  match addressing event with
  | Some (user, type, title) =>
      ∃ message metadata, ∀ w,
        handle env event w =
          (createNotification env user type title (Some message) None
             metadata >> ack) w
  | None => ∀ w, handle env event w = (Ok tt, advance w (db w) 0 [Ack])
  end.
Proof.
  destruct event as [p|p|p|p|p|p|p]; cbn [handle addressing];
    try (eexists _, _; intros w; reflexivity).
  unfold on_CAMPAIGN_STATUS_CHANGED.
  case_bool_decide as Hst; cbn [andb];
    [destruct (truthy (cs_changedBy p)) eqn:Hby|].
  - exists "Campaign has been paused.",
      (Some [("campaignId", MStr (cs_campaignId p));
             ("oldStatus", MStr (cs_oldStatus p));
             ("newStatus", MStr (cs_newStatus p))]).
    intros w. unfold bind, ret.
    destruct (createNotification _ _ _ _ _ _ _ w) as [[n|error] w1];
      reflexivity.
  - reflexivity.
  - reflexivity.
Qed.

(** X17. A handler touches nothing but the table and the broker: it never
    sends an outbound request, makes at most one call to the store, keeps
    every stored notification as it is and adds at most one row. *)
Theorem handle_in_app_only env event w :
  ∃ effects,
    trace (handle env event w).2 = effects ++ trace w ∧
    no_request effects ∧
    http_calls (handle env event w).2 = http_calls w ∧
    (store_calls (handle env event w).2 ≤ S (store_calls w))%nat ∧
    (∀ id n, db w !! id = Some n →
             db (handle env event w).2 !! id = Some n) ∧
    (size (db (handle env event w).2) ≤ S (size (db w)))%nat.
Proof.
  pose proof (handle_shape env event) as Hshape.
  destruct (addressing event) as [[[user type] title]|].
  - destruct Hshape as (message & metadata & Hshape). rewrite Hshape.
    rewrite create_ack_run.
    destruct (store_fault env (store_calls w)) as [error|].
    + eexists. split; [reflexivity|]. cbn [snd advance db store_calls
        http_calls]. split; [|split; [done|split; [lia|split; [done|lia]]]].
      intros req ok Hin. apply list_elem_of_singleton in Hin. discriminate.
    + destruct (db w !! gen_id env (store_calls w)) eqn:Hfresh.
      * eexists. split; [reflexivity|]. cbn [snd advance db store_calls
          http_calls]. split; [|split; [done|split; [lia|split; [done|lia]]]].
        intros req ok Hin. apply list_elem_of_singleton in Hin. discriminate.
      * eexists. split; [reflexivity|]. cbn [snd advance db store_calls
          http_calls].
        split; [|split; [done|split; [lia|split]]].
        -- intros req ok Hin. repeat (apply elem_of_cons in Hin as [?|Hin];
             [discriminate|]). by apply not_elem_of_nil in Hin.
        -- intros id n Hn. rewrite lookup_insert_ne by congruence. done.
        -- by rewrite map_size_insert_None.
  - rewrite Hshape. eexists. split; [reflexivity|].
    cbn [snd advance db store_calls http_calls].
    split; [|split; [done|split; [lia|split; [done|lia]]]].
    intros req ok Hin. apply list_elem_of_singleton in Hin. discriminate.
Qed.

(** X18. With the store available, a handler stores a notification exactly
    when its event is addressed to someone, then exactly one: unread,
    without link, for the recipient and with the type and title of the
    event type; "campaign ended" goes to the user ['system'], "campaign
    status changed" to [changedBy] and only for a pause, every other event
    to the [userId] of its payload. *)
Theorem handle_addresses_notification env event w :
  store_fault env (store_calls w) = None →
  db w !! gen_id env (store_calls w) = None →
  ∃ w',
    handle env event w = (Ok tt, w') ∧
    match addressing event with
    | Some (user, type, title) =>
        ∃ created,
          db w' = <[n_id created := created]> (db w) ∧
          db w !! n_id created = None ∧
          n_userId created = user ∧ n_type created = type ∧
          n_title created = title ∧ n_link created = None ∧
          n_isRead created = false ∧ is_Some (n_message created)
    | None => db w' = db w
    end.
Proof.
  intros Hok Hfresh.
  pose proof (handle_shape env event) as Hshape.
  destruct (addressing event) as [[[user type] title]|].
  - destruct Hshape as (message & metadata & Hshape). rewrite Hshape.
    rewrite create_ack_run, Hok, Hfresh.
    eexists. split; [reflexivity|]. cbn [advance db].
    exists (new_row env (store_calls w) user type title (Some message) None
              metadata).
    split; [reflexivity|]. cbn [new_row n_id]. done.
  - rewrite Hshape. eexists. split; [reflexivity|]. done.
Qed.

Lemma handle_addresses_notification_witness :
  store_fault env0 (store_calls w0) = None ∧
  db w0 !! gen_id env0 (store_calls w0) = None ∧
  (∃ w', handle env0 (CampaignEnded (mkCampaignEnded "budget" (of_int 12)
                                       (of_int 3400))) w0 = (Ok tt, w') ∧
         ∃ created,
           db w' = <[n_id created := created]> (db w0) ∧
           db w0 !! n_id created = None ∧
           n_userId created = "system" ∧ n_type created = SYSTEM_ALERT ∧
           n_title created = "Campaign Ended" ∧ n_link created = None ∧
           n_isRead created = false ∧ is_Some (n_message created)) ∧
  (∃ w', handle env0 (CampaignStatusChanged activated0) w0 = (Ok tt, w') ∧
         db w' = db w0).
Proof.
  assert (H1 : store_fault env0 (store_calls w0) = None) by reflexivity.
  assert (H2 : db w0 !! gen_id env0 (store_calls w0) = None)
    by (vm_compute; reflexivity).
  split; [exact H1|]. split; [exact H2|]. split.
  - exact (handle_addresses_notification env0 (CampaignEnded _) w0 H1 H2).
  - exact (handle_addresses_notification env0
             (CampaignStatusChanged activated0) w0 H1 H2).
Defined.

(** X19. Redelivery is not idempotent: handling the same addressed event
    again stores a second notification with the same content under
    another identifier. *)
Theorem redelivery_duplicates env event w :
  reliable env → fresh_ids env w →
  is_Some (addressing event) →
  ∃ w1 w2 first second,
    handle env event w = (Ok tt, w1) ∧
    handle env event w1 = (Ok tt, w2) ∧
    db w2 = <[n_id second := second]> (<[n_id first := first]> (db w)) ∧
    n_id first ≠ n_id second ∧
    same_content first second ∧
    size (db w2) = S (S (size (db w))).
Proof.
  intros Hrel [Hnew Hinj] [[[user type] title] Haddr].
  pose proof (handle_shape env event) as Hshape. rewrite Haddr in Hshape.
  destruct Hshape as (message & metadata & Hshape).
  assert (gen_id env (S (store_calls w)) ≠ gen_id env (store_calls w))
    as Hdiff by (intros Heq; apply Hinj in Heq; lia).
  rewrite !Hshape, create_ack_run, Hrel, Hnew by lia.
  eexists _, _,
    (new_row env (store_calls w) user type title (Some message) None
       metadata),
    (new_row env (S (store_calls w)) user type title (Some message) None
       metadata).
  split; [reflexivity|].
  rewrite Hshape, create_ack_run, Hrel. cbn [advance db store_calls Nat.add].
  rewrite lookup_insert_ne by done. rewrite Hnew by lia.
  split; [reflexivity|]. cbn [advance db new_row n_id].
  split; [reflexivity|]. split; [done|]. split; [done|].
  rewrite !map_size_insert_None; [done|apply Hnew; lia|].
  rewrite lookup_insert_ne by done. apply Hnew. lia.
Qed.

Lemma redelivery_duplicates_witness :
  reliable env0 ∧ fresh_ids env0 w0 ∧
  is_Some (addressing (ClipApproved clip0)) ∧
  ∃ w1 w2 first second,
    handle env0 (ClipApproved clip0) w0 = (Ok tt, w1) ∧
    handle env0 (ClipApproved clip0) w1 = (Ok tt, w2) ∧
    db w2 = <[n_id second := second]> (<[n_id first := first]> (db w0)) ∧
    n_id first ≠ n_id second ∧
    same_content first second ∧
    size (db w2) = S (S (size (db w0))).
Proof.
  assert (Hrel : reliable env0) by (intros k; reflexivity).
  assert (Hinj : ∀ j k : nat, gen_id env0 j = gen_id env0 k → j = k).
  { intros j k [= Heq]. change (pretty j = pretty k) in Heq.
    by apply (inj pretty) in Heq. }
  assert (Hfresh : fresh_ids env0 w0).
  { split; [|intros j k _ _; apply Hinj].
    intros k _. unfold w0, rows0. cbn [db].
    rewrite !lookup_insert_ne, lookup_empty; [done|..]; discriminate. }
  split; [exact Hrel|]. split; [exact Hfresh|].
  split; [by eexists|].
  exact (redelivery_duplicates env0 (ClipApproved clip0) w0 Hrel Hfresh
           ltac:(by eexists)).
Defined.

(* ===================================================================== *)
(** * events/handlers: the wording of the messages                        *)
(* ===================================================================== *)

(** X20. The notification for a "dispute resolved" event says "resolved in
    your favor" when the status is exactly ['RESOLVED'] and "rejected" for
    every other status, followed by the resolution text. *)
Theorem dispute_resolved_wording env payload w :
  store_fault env (store_calls w) = None →
  db w !! gen_id env (store_calls w) = None →
  ∃ created w',
    handle env (DisputeResolved payload) w = (Ok tt, w') ∧
    db w' !! n_id created = Some created ∧
    n_userId created = dr_userId payload ∧
    n_message created =
      Some (if decide (dr_status payload = "RESOLVED")
            then "Your dispute has been resolved in your favor. Resolution: "
                 +:+ dr_resolution payload
            else "Your dispute has been rejected. Resolution: "
                 +:+ dr_resolution payload).
Proof.
  intros Hok Hfresh. cbn [handle]. unfold on_DISPUTE_RESOLVED.
  rewrite create_ack_run, Hok, Hfresh.
  eexists (new_row _ _ _ _ _ _ _ _), _. split; [reflexivity|].
  cbn [advance db new_row n_id n_userId n_message].
  split; [apply lookup_insert_eq|]. split; [reflexivity|].
  case_bool_decide as Hs.
  - by rewrite decide_True.
  - by rewrite decide_False.
Qed.

Lemma dispute_resolved_wording_witness :
  store_fault env0 (store_calls w0) = None ∧
  db w0 !! gen_id env0 (store_calls w0) = None ∧
  ∃ created w',
    handle env0
      (DisputeResolved (mkDisputeResolved "alice" "d-1" "clip-1" "resolved"
                          "duplicate clip")) w0 = (Ok tt, w') ∧
    db w' !! n_id created = Some created ∧
    n_userId created = "alice" ∧
    n_message created =
      Some "Your dispute has been rejected. Resolution: duplicate clip".
Proof.
  assert (H1 : store_fault env0 (store_calls w0) = None) by reflexivity.
  assert (H2 : db w0 !! gen_id env0 (store_calls w0) = None)
    by (vm_compute; reflexivity).
  split; [exact H1|]. split; [exact H2|].
  exact (dispute_resolved_wording env0
           (mkDisputeResolved "alice" "d-1" "clip-1" "resolved"
              "duplicate clip") w0 H1 H2).
Defined.

(** X21. The notification for a "payout completed" event goes to the
    payload's user with type PAYMENT_COMPLETED, and its message gives the
    amount in major units with two decimals, for an amount of integer
    minor units of magnitude below [2^52]. *)
Theorem payout_completed_amount env payload n w :
  pc_amount payload = of_int n →
  Z.abs n < 2 ^ 52 →
  store_fault env (store_calls w) = None →
  db w !! gen_id env (store_calls w) = None →
  ∃ created w',
    handle env (PayoutCompleted payload) w = (Ok tt, w') ∧
    db w' !! n_id created = Some created ∧
    n_userId created = pc_userId payload ∧
    n_type created = PAYMENT_COMPLETED ∧
    n_message created =
      Some ("Your payout of $" +:+ major_units n +:+ " has been completed.").
Proof.
  intros Hamount Hn Hok Hfresh. cbn [handle]. unfold on_PAYOUT_COMPLETED.
  rewrite create_ack_run, Hok, Hfresh.
  eexists (new_row _ _ _ _ _ _ _ _), _. split; [reflexivity|].
  cbn [advance db new_row n_id n_userId n_message n_type].
  split; [apply lookup_insert_eq|]. split; [reflexivity|].
  split; [reflexivity|].
  by rewrite Hamount, toFixed_minor_units.
Qed.

Lemma payout_completed_amount_witness :
  pc_amount (mkPayoutCompleted "alice" "po-1" (of_int 120005) "0xabc") =
    of_int 120005 ∧
  Z.abs 120005 < 2 ^ 52 ∧
  store_fault env0 (store_calls w0) = None ∧
  db w0 !! gen_id env0 (store_calls w0) = None ∧
  ∃ created w',
    handle env0
      (PayoutCompleted (mkPayoutCompleted "alice" "po-1" (of_int 120005)
                          "0xabc")) w0 = (Ok tt, w') ∧
    db w' !! n_id created = Some created ∧
    n_userId created = "alice" ∧
    n_type created = PAYMENT_COMPLETED ∧
    n_message created =
      Some "Your payout of $1200.05 has been completed.".
Proof.
  assert (H0 : Z.abs 120005 < 2 ^ 52) by (vm_compute; reflexivity).
  assert (H1 : store_fault env0 (store_calls w0) = None) by reflexivity.
  assert (H2 : db w0 !! gen_id env0 (store_calls w0) = None)
    by (vm_compute; reflexivity).
  split; [reflexivity|]. split; [exact H0|]. split; [exact H1|].
  split; [exact H2|].
  exact (payout_completed_amount env0
           (mkPayoutCompleted "alice" "po-1" (of_int 120005) "0xabc")
           120005 w0 eq_refl H0 H1 H2).
Defined.

(** An integer count in a template literal. *)
Lemma number_toString_int big n :
  0 ≤ n < 2 ^ 53 → number_toString big (of_int n) = pretty n.
Proof.
  intros Hn. unfold number_toString, of_int.
  change (Z.max 0 0) with 0. change (Z.max 0 (- 0)) with 0.
  rewrite Z.pow_0_r, Z.mul_1_r, Z.mod_1_r, Z.div_1_r.
  change (0 =? 0) with true. cbn iota.
  rewrite (Z.abs_eq n) by lia.
  rewrite (proj2 (Z.ltb_lt n (2 ^ 53))) by lia.
  rewrite (proj2 (Z.ltb_ge n 0)) by lia. reflexivity.
Qed.

(** X22. The notification for a "campaign ended" event is a SYSTEM_ALERT
    for the user ['system'], whatever the payload; its message quotes the
    end reason and prints the two counts in decimal, for counts that are
    integers from 0 to below [2^53]. *)
Theorem campaign_ended_message env payload clips views w :
  ce_totalClips payload = of_int clips → 0 ≤ clips < 2 ^ 53 →
  ce_totalViews payload = of_int views → 0 ≤ views < 2 ^ 53 →
  store_fault env (store_calls w) = None →
  db w !! gen_id env (store_calls w) = None →
  ∃ created w',
    handle env (CampaignEnded payload) w = (Ok tt, w') ∧
    db w' !! n_id created = Some created ∧
    n_userId created = "system" ∧
    n_type created = SYSTEM_ALERT ∧
    n_title created = "Campaign Ended" ∧
    n_metadata created = None ∧
    n_message created =
      Some ("Campaign ended (" +:+ ce_endReason payload +:+
            "). Total clips: " +:+ pretty clips +:+
            ", Total views: " +:+ pretty views +:+ ".").
Proof.
  intros Hclips Hc Hviews Hv Hok Hfresh. cbn [handle].
  unfold on_CAMPAIGN_ENDED, createSystemNotification.
  rewrite create_ack_run, Hok, Hfresh.
  eexists (new_row _ _ _ _ _ _ _ _), _. split; [reflexivity|].
  cbn [advance db new_row n_id n_userId n_message n_type n_title n_metadata].
  split; [apply lookup_insert_eq|]. do 4 (split; [reflexivity|]).
  by rewrite Hclips, Hviews, !number_toString_int.
Qed.

Lemma campaign_ended_message_witness :
  ce_totalClips (mkCampaignEnded "budget" (of_int 12) (of_int 3400)) =
    of_int 12 ∧ 0 ≤ 12 < 2 ^ 53 ∧
  ce_totalViews (mkCampaignEnded "budget" (of_int 12) (of_int 3400)) =
    of_int 3400 ∧ 0 ≤ 3400 < 2 ^ 53 ∧
  store_fault env0 (store_calls w0) = None ∧
  db w0 !! gen_id env0 (store_calls w0) = None ∧
  ∃ created w',
    handle env0 (CampaignEnded (mkCampaignEnded "budget" (of_int 12)
                                  (of_int 3400))) w0 = (Ok tt, w') ∧
    db w' !! n_id created = Some created ∧
    n_userId created = "system" ∧
    n_type created = SYSTEM_ALERT ∧
    n_title created = "Campaign Ended" ∧
    n_metadata created = None ∧
    n_message created =
      Some "Campaign ended (budget). Total clips: 12, Total views: 3400.".
Proof.
  assert (Hc : 0 ≤ 12 < 2 ^ 53) by (split; [lia|reflexivity]).
  assert (Hv : 0 ≤ 3400 < 2 ^ 53) by (split; [lia|reflexivity]).
  assert (H1 : store_fault env0 (store_calls w0) = None) by reflexivity.
  assert (H2 : db w0 !! gen_id env0 (store_calls w0) = None)
    by (vm_compute; reflexivity).
  split; [reflexivity|]. split; [exact Hc|]. split; [reflexivity|].
  split; [exact Hv|]. split; [exact H1|]. split; [exact H2|].
  exact (campaign_ended_message env0
           (mkCampaignEnded "budget" (of_int 12) (of_int 3400)) 12 3400 w0
           eq_refl Hc eq_refl Hv H1 H2).
Defined.

(* ===================================================================== *)
(** * routes/notifications                                                *)
(* ===================================================================== *)

Ltac run_route :=
  unfold route_list, route_unread_count, route_mark_read, route_delete,
    try_catch, lift, bind, ret;
  cbn [fst snd].

(** X23. No route throws: whatever the authentication, the validation and
    the service do, the route returns a reply; and a request that fails
    authentication gets the authentication error without any call to the
    store. *)
Theorem routes_never_throw env auth query body id w :
  (∃ reply w', route_list env auth query w = (Ok reply, w')) ∧
  (∃ reply w', route_unread_count env auth w = (Ok reply, w')) ∧
  (∃ reply w', route_mark_read env auth body w = (Ok reply, w')) ∧
  (∃ reply w', route_delete env auth id w = (Ok reply, w')) ∧
  (∀ error, auth = Throw error →
     route_list env auth query w = (Ok (SentError error), w) ∧
     route_unread_count env auth w = (Ok (SentError error), w) ∧
     route_mark_read env auth body w = (Ok (SentError error), w) ∧
     route_delete env auth id w = (Ok (SentError error), w)).
Proof.
  split; [|split; [|split; [|split]]].
  - run_route. destruct auth as [user|e]; [|by eexists _, _].
    destruct query as [q|e]; [|by eexists _, _].
    destruct (getNotifications env user _ _ w) as [[page|e] w'];
      by eexists _, _.
  - run_route. destruct auth as [user|e]; [|by eexists _, _].
    destruct (getUnreadCount env user w) as [[c|e] w']; by eexists _, _.
  - run_route. destruct auth as [user|e]; [|by eexists _, _].
    destruct body as [b|e]; [|by eexists _, _].
    case_bool_decide.
    + destruct (markAllAsRead env user w) as [[c|e] w']; by eexists _, _.
    + destruct (truthy (b_notificationId b)); [|by eexists _, _].
      destruct (markAsRead env user _ w) as [[n|e] w']; by eexists _, _.
  - run_route. destruct auth as [user|e]; [|by eexists _, _].
    destruct (deleteNotification env user id w) as [[[]|e] w'];
      by eexists _, _.
  - intros error ->. run_route. done.
Qed.

(** X24. [POST /mark-read] with the store available: [markAll: true] marks
    everything of the caller and replies with the count, whatever
    [notificationId] is; otherwise a non-empty [notificationId] is marked
    and returned when it is the caller's, and answered with NotFound or
    Forbidden, the table untouched, when it is not; and a body with
    neither takes no action: a message is returned and the store is not
    called. *)
Theorem route_mark_read_contract env user body w :
  reliable env →
  ∃ reply w',
    route_mark_read env (Ok user) (Ok body) w = (Ok reply, w') ∧
    if decide (b_markAll body = Some true) then
      reply = Sent (BCount (size (unread_of user (db w)))) ∧
      unread_of user (db w') = ∅
    else
      match b_notificationId body with
      | Some id =>
          if decide (id = "") then
            reply = Sent (BMessage
              "No action taken. Provide notificationId or markAll: true.") ∧
            w' = w
          else
            match db w !! id with
            | Some n =>
                if decide (n_userId n = user) then
                  reply = Sent (BNotification (set_isRead true n)) ∧
                  db w' = <[id := set_isRead true n]> (db w)
                else
                  reply = SentError (JsError Forbidden
                    "Cannot mark another user's notification as read") ∧
                  db w' = db w
            | None =>
                reply = SentError (JsError NotFound "Notification not found") ∧
                db w' = db w
            end
      | None =>
          reply = Sent (BMessage
            "No action taken. Provide notificationId or markAll: true.") ∧
          w' = w
      end.
Proof.
  intros Hrel. run_route.
  destruct (decide (b_markAll body = Some true)) as [Hall|Hall].
  - rewrite bool_decide_eq_true_2 by done.
    rewrite markAllAsRead_run by apply Hrel.
    eexists _, _. split; [reflexivity|]. split; [reflexivity|].
    cbn [advance db]. apply unread_of_mark_all.
  - rewrite bool_decide_eq_false_2 by done.
    destruct (b_notificationId body) as [id|]; cbn [truthy from_option];
      [|by eexists _, _].
    change (Datatypes.id id) with id.
    destruct (decide (id = "")) as [->|Hid].
    { rewrite bool_decide_eq_false_2 by (intros ?; done). by eexists _, _. }
    rewrite bool_decide_eq_true_2 by done.
    destruct (db w !! id) as [n|] eqn:Hn.
    + destruct (decide (n_userId n = user)) as [Hu|Hu].
      * rewrite (markAsRead_run env user id w n) by done.
        by eexists _, _.
      * rewrite markAsRead_refused;
          [|apply Hrel|intros n' Hn'; congruence].
        rewrite Hn. by eexists _, _.
    + rewrite markAsRead_refused; [|apply Hrel|intros n' Hn'; congruence].
      rewrite Hn. by eexists _, _.
Qed.

Lemma route_mark_read_contract_witness :
  reliable env0 ∧
  (∃ reply w',
     route_mark_read env0 (Ok "alice")
       (Ok (mkMarkReadBody (Some "b1") (Some true))) w0 = (Ok reply, w') ∧
     reply = Sent (BCount (size (unread_of "alice" (db w0)))) ∧
     unread_of "alice" (db w') = ∅) ∧
  (∃ reply w',
     route_mark_read env0 (Ok "alice")
       (Ok (mkMarkReadBody (Some "") (Some false))) w0 = (Ok reply, w') ∧
     reply = Sent (BMessage
       "No action taken. Provide notificationId or markAll: true.") ∧
     w' = w0).
Proof.
  assert (Hrel : reliable env0) by (intros k; reflexivity).
  split; [exact Hrel|]. split.
  - exact (route_mark_read_contract env0 "alice"
             (mkMarkReadBody (Some "b1") (Some true)) w0 Hrel).
  - exact (route_mark_read_contract env0 "alice"
             (mkMarkReadBody (Some "") (Some false)) w0 Hrel).
Defined.

(** X25. [DELETE /:id] with the store available replies 204 and removes the
    row when the notification is the caller's, and hands NotFound or
    Forbidden to [sendError], the table untouched, when it does not exist
    or belongs to another user. *)
Theorem route_delete_contract env user id w :
  reliable env →
  ∃ reply w',
    route_delete env (Ok user) id w = (Ok reply, w') ∧
    match db w !! id with
    | Some n =>
        if decide (n_userId n = user) then
          reply = NoContent ∧ db w' = delete id (db w)
        else
          reply = SentError (JsError Forbidden
                    "Cannot delete another user's notification") ∧
          db w' = db w
    | None =>
        reply = SentError (JsError NotFound "Notification not found") ∧
        db w' = db w
    end.
Proof.
  intros Hrel. run_route.
  destruct (db w !! id) as [n|] eqn:Hn.
  - destruct (decide (n_userId n = user)) as [Hu|Hu].
    + rewrite (deleteNotification_run env user id w n) by done.
      by eexists _, _.
    + rewrite deleteNotification_refused;
        [|apply Hrel|intros n' Hn'; congruence].
      rewrite Hn. by eexists _, _.
  - rewrite deleteNotification_refused;
      [|apply Hrel|intros n' Hn'; congruence].
    rewrite Hn. by eexists _, _.
Qed.

Lemma route_delete_contract_witness :
  reliable env0 ∧
  (∃ reply w',
     route_delete env0 (Ok "bob") "b1" w0 = (Ok reply, w') ∧
     reply = NoContent ∧ db w' = delete "b1" (db w0)) ∧
  (∃ reply w',
     route_delete env0 (Ok "bob") "a1" w0 = (Ok reply, w') ∧
     reply = SentError (JsError Forbidden
               "Cannot delete another user's notification") ∧
     db w' = db w0).
Proof.
  assert (Hrel : reliable env0) by (intros k; reflexivity).
  split; [exact Hrel|]. split.
  - exact (route_delete_contract env0 "bob" "b1" w0 Hrel).
  - exact (route_delete_contract env0 "bob" "a1" w0 Hrel).
Defined.
